(** * Pending-request tracking of the story app client

  A shallow embedding of the request-tracking code of the client:

  - the generating screen ([GeneratingScreen], with [loadRequest] and
    [startStoryGeneration]), which starts the server-side generation of a
    freshly created request;
  - the home screen ([HomeScreen], with the effect on [newPendingRequestId],
    [loadPendingRequests] and [handleCancelRequest]), which keeps the list
    of pending requests shown as banners, with the data it loads
    ([loadData], [checkBirthdays]) and its older version with a single
    pending request;
  - the wizard store and the last step of the wizard ([handleCreateStory]),
    which creates the requests.

  React state and refs are explicit state records; every asynchronous
  function is cut at its [await]: the part after the [await] is a function
  of the awaited result, which is how the JavaScript event loop runs it
  (one continuation at a time, never interleaved with another one). *)

From stdpp Require Import base strings list gmap sorting.
From Stdlib Require Import ZArith Lia.

Local Open Scope Z_scope.

(** ** The remote table [story_requests] *)

Module Remote.

(** A stored row, without its primary key [id] (the key of the table). *)
Record RowData := mkRowData {
  row_user_id : string;
  row_status : string;
  row_created_at : Z;               (* timestamp, in milliseconds *)
  row_error_message : option string;
  row_is_episode : option bool;
  row_episode_number : option Z
}.

(** The table: rows keyed by [id]. *)
Abbreviation Table := (gmap string RowData).

(** A request object as the client holds it ([any] in the source): what
    [select('*')] returns for a row, or the placeholder the home screen
    builds, which has only [id], [status] and [is_episode]. A field that the
    object does not have is [None]. *)
Record StoryRequest := mkStoryRequest {
  id : string;
  user_id : option string;
  status : string;
  created_at : option Z;
  error_message : option string;
  is_episode : option bool;
  episode_number : option Z
}.

(** [select('*')] on one row. *)
Definition select_star (k : string) (d : RowData) : StoryRequest :=
  {| id := k;
     user_id := Some (row_user_id d);
     status := row_status d;
     created_at := Some (row_created_at d);
     error_message := row_error_message d;
     is_episode := row_is_episode d;
     episode_number := row_episode_number d |}.

(** The object of an [update({...})]: [status] is always given, the key
    [error_message] only by the failure paths. *)
Record Patch := mkPatch {
  patch_status : string;
  patch_error_message : option string
}.

Definition apply_patch (p : Patch) (d : RowData) : RowData :=
  {| row_user_id := row_user_id d;
     row_status := patch_status p;
     row_created_at := row_created_at d;
     row_error_message :=
       match patch_error_message p with
       | Some m => Some m
       | None => row_error_message d
       end;
     row_is_episode := row_is_episode d;
     row_episode_number := row_episode_number d |}.

(** [update(p).eq('id', rid)], when the store accepts it: a row that does
    not exist is not created. *)
Definition update_eq_id (p : Patch) (rid : string) (t : Table) : Table :=
  alter (apply_patch p) rid t.

End Remote.

(** ** JavaScript values the code inspects *)

Module Js.

(** [s.includes(sub)] *)
Fixpoint includes (sub s : string) : bool :=
  if String.prefix sub s then true
  else match s with
       | EmptyString => false
       | String _ s' => includes sub s'
       end.

(** The [error] of [{ data, error }] returned by [functions.invoke]: an
    [Error] object, with a name and a message. *)
Record FunctionsError := mkFunctionsError {
  fe_name : string;
  fe_message : string
}.

(** A caught value ([error: any]) other than [undefined] and [null]: an
    object (or a primitive) that may lack [name] or [message]; when it has
    them, they are strings, as those of an [Error] are. *)
Record Thrown := mkThrown {
  name : option string;
  message : option string
}.

(** Truthiness of a string-or-null. *)
Definition truthy (v : option string) : bool :=
  match v with
  | Some s => negb (bool_decide (s = ""))
  | None => false
  end.

End Js.

(** ** The generating screen *)

Module Generating.
Import Remote Js.

(** What the screen does to the outside world, in the order it does it. *)
Inductive Effect :=
| UpdateRow (rid : string) (p : Patch)   (* from('story_requests').update(p).eq('id', rid) *)
| Invoke (fn : string) (request_id : string)   (* functions.invoke(fn, { body: { request_id } }) *)
| ConsoleError
| ConsoleLog (msg : string).

(** How [functions.invoke] ends: it returns, or a value is thrown and
    caught; a thrown [undefined] or [null] has no [name] and no [message] to
    read. *)
Inductive InvokeOutcome :=
| Returned (error : option FunctionsError)
| Threw (e : Thrown)
| ThrewNullish.

(** The [catch] block of [startStoryGeneration]: which caught values are
    taken for a timeout of the client. *)
Definition caught_timeout (e : Thrown) : bool :=
  bool_decide (name e = Some "FunctionsFetchError")
  || match message e with
     | Some m => includes "Failed to send" m
     | None => false
     end.

(** [error.message || 'Unbekannter Fehler'] *)
Definition message_or_default (e : Thrown) : string :=
  if truthy (message e) then default "" (message e) else "Unbekannter Fehler".

Definition failed (msg : string) : Patch :=
  {| patch_status := "failed"; patch_error_message := Some msg |}.

Definition processing : Patch :=
  {| patch_status := "processing"; patch_error_message := None |}.

(** [startStoryGeneration], for the request [requestId] of the screen and
    the outcome of its call of the edge function: what it does, from its
    start to its end. The updates are awaited and their results are not
    looked at (the query builder resolves to [{ data, error }]). *)
Definition startStoryGeneration (requestId : string) (o : InvokeOutcome)
  : list Effect :=
  [UpdateRow requestId processing; Invoke "create-story" requestId] ++
  match o with
  | Returned None => []
  | Returned (Some error) =>
      if negb (bool_decide (fe_name error = "FunctionsFetchError"))
      then [ConsoleError; UpdateRow requestId (failed (fe_message error))]
      else [ConsoleLog "Edge function timeout - function continues in background"]
  | Threw error =>
      if caught_timeout error
      then [ConsoleLog "Request timeout - function continues in background"]
      else [ConsoleError; UpdateRow requestId (failed (message_or_default error))]
  | ThrewNullish =>
      (* [error?.name] and [error?.message] are undefined, the error is
         logged, and [error.message] throws a TypeError out of the catch
         block: nothing is written *)
      [ConsoleError]
  end.


(** The component: the [request] state and the [hasStartedGeneration]
    ref. *)
Record State := mkState {
  request : option StoryRequest;
  hasStartedGeneration : bool
}.

Definition init : State :=
  {| request := None; hasStartedGeneration := false |}.

(** [loadRequest] after its query has resolved with [data]; [o] is how the
    edge function call ends if this run makes it. The marker is set before
    [startStoryGeneration] is called, and the call is not awaited: what the
    started run does later touches the store and the console only, never the
    state of the screen, so it is listed with the step that starts it. *)
Definition loadRequest (requestId : string) (data : option StoryRequest)
    (o : InvokeOutcome) (st : State) : State * list Effect :=
  match data with
  | Some d =>
      if bool_decide (status d = "queued") && negb (hasStartedGeneration st)
      then ({| request := Some d; hasStartedGeneration := true |},
            startStoryGeneration requestId o)
      else ({| request := Some d;
               hasStartedGeneration := hasStartedGeneration st |}, [])
  | None => (st, [])
  end.

(** The realtime [UPDATE] callback: [setRequest(payload.new)]. *)
Definition onUpdate (new : StoryRequest) (st : State) : State :=
  {| request := Some new; hasStartedGeneration := hasStartedGeneration st |}.

(** What can happen to a mounted screen: a [loadRequest] (from the mount
    effect or a focus) gets its answer, or a realtime update arrives. *)
Inductive Event :=
| LoadRequestResolved (data : option StoryRequest) (o : InvokeOutcome)
| RealtimeUpdate (new : StoryRequest).

Definition step (requestId : string) (st : State) (ev : Event)
  : State * list Effect :=
  match ev with
  | LoadRequestResolved data o => loadRequest requestId data o st
  | RealtimeUpdate new => (onUpdate new st, [])
  end.

(** A run of the screen: the final state and everything it did. *)
Fixpoint run (requestId : string) (st : State) (evs : list Event)
  : State * list Effect :=
  match evs with
  | [] => (st, [])
  | ev :: evs' =>
      let '(st1, fx1) := step requestId st ev in
      let '(st2, fx2) := run requestId st1 evs' in
      (st2, fx1 ++ fx2)
  end.

(** An event other than a [loadRequest] that finds the request
    ['queued']. *)
Definition not_queued (ev : Event) : Prop :=
  match ev with
  | LoadRequestResolved (Some d) _ => status d ≠ "queued"
  | _ => True
  end.

Definition is_invoke (e : Effect) : bool :=
  match e with Invoke _ _ => true | _ => false end.

(** How often the edge function was called. *)
Definition invocations (fx : list Effect) : nat :=
  length (filter (λ e, is_invoke e = true) fx).

(** The store's reaction to what the screen did. *)
Definition apply_effect (t : Table) (e : Effect) : Table :=
  match e with
  | UpdateRow rid p => update_eq_id p rid t
  | _ => t
  end.

Definition apply_effects (fx : list Effect) (t : Table) : Table :=
  foldl apply_effect t fx.

(** What the screen renders of the request. *)
Definition isFailed (st : State) : bool :=
  match request st with
  | Some r => bool_decide (status r = "failed")
  | None => false
  end.

(** The text of the error box: shown for a failed request with a
    non-empty message. *)
Definition errorText (st : State) : option string :=
  match request st with
  | Some r =>
      if isFailed st && truthy (error_message r) then error_message r
      else None
  | None => None
  end.

End Generating.

(** ** The home screen *)

Module Home.
Import Remote Js.

(** What the screen does to the outside world. *)
Inductive Effect :=
| ConsoleLog
| ConsoleError
| AlertShown (title text : string)          (* Alert.alert(title, text, ...) *)
| SetNewPendingRequestId (v : option string)  (* the wizard store's setter *)
| DeleteRow (rid : string)                  (* from('story_requests').delete().eq('id', rid) *)
| LoadPendingRequests.                      (* a call of loadPendingRequests: its query is sent *)

(** The component: the [pendingRequests] state and the
    [processedRequestIdRef] ref. *)
Record State := mkState {
  pendingRequests : list StoryRequest;
  processedRequestIdRef : option string
}.

Definition init : State :=
  {| pendingRequests := []; processedRequestIdRef := None |}.

(** The minimal request that shows the banner at once:
    [{ id, status: 'queued', is_episode: false }]. *)
Definition placeholder (rid : string) : StoryRequest :=
  {| id := rid;
     user_id := None;
     status := "queued";
     created_at := None;
     error_message := None;
     is_episode := Some false;
     episode_number := None |}.

(** The updater given to [setPendingRequests] by the effect:
    [prev => [placeholder, ...prev.filter(r => r.id !== rid)]]. *)
Definition addPlaceholder (rid : string) (prev : list StoryRequest)
  : list StoryRequest :=
  placeholder rid :: filter (λ r, id r ≠ rid) prev.

(** The effect on [newPendingRequestId] (the tracking of a new request), run
    with the value [v] of the store. *)
Definition trackNewRequest (v : option string) (st : State)
  : State * list Effect :=
  match v with
  | Some rid =>
      if truthy v && negb (bool_decide (v = processedRequestIdRef st))
      then ({| pendingRequests := addPlaceholder rid (pendingRequests st);
               processedRequestIdRef := Some rid |},
            [ConsoleLog; SetNewPendingRequestId None; LoadPendingRequests])
      else (st, [])
  | None => (st, [])
  end.

(** The statuses the query of [loadPendingRequests] asks for. *)
Definition pending_statuses : list string :=
  ["queued"; "generating_text"; "generating_images"; "rendering_clips"].

(** [Date.now() - 10 * 60 * 1000] *)
Definition tenMinutesAgo (now : Z) : Z := now - 10 * 60 * 1000.

(** The filters of the query: [.eq('user_id', uid)], [.in('status', ...)],
    [.gte('created_at', tenMinutesAgo)]. *)
Definition matches (uid : string) (now : Z) (kd : string * RowData) : bool :=
  bool_decide (row_user_id kd.2 = uid)
  && bool_decide (row_status kd.2 ∈ pending_statuses)
  && bool_decide (tenMinutesAgo now ≤ row_created_at kd.2).

(** [.order('created_at', { ascending: false })] *)
Definition newer_first (x y : string * RowData) : Prop :=
  row_created_at y.2 ≤ row_created_at x.2.

#[global] Instance newer_first_dec : RelDecision newer_first :=
  λ x y, decide (row_created_at y.2 ≤ row_created_at x.2).

(** The rows the store answers the query with, for the signed-in user
    [uid], at the client's time [now]. *)
Definition select_pending (uid : string) (now : Z) (t : Table)
  : list StoryRequest :=
  uncurry select_star
    <$> merge_sort newer_first
          (filter (λ kd, matches uid now kd = true) (map_to_list t)).

(** How the query of [loadPendingRequests] ends: with [{ data, error }], or
    with an exception. *)
Inductive QueryOutcome :=
| Answered (pendingData : option (list StoryRequest)) (error : option string)
| Rejected.

(** [loadPendingRequests] after its query has ended: the [error] branch and
    the [catch] block both set the list to [[]]. *)
Definition loadPendingRequests (o : QueryOutcome) (st : State)
  : State * list Effect :=
  match o with
  | Answered pendingData None =>
      ({| pendingRequests := default [] pendingData;
          processedRequestIdRef := processedRequestIdRef st |},
       [ConsoleLog])
  | Answered _ (Some _) =>
      ({| pendingRequests := [];
          processedRequestIdRef := processedRequestIdRef st |},
       [ConsoleLog; ConsoleError])
  | Rejected =>
      ({| pendingRequests := [];
          processedRequestIdRef := processedRequestIdRef st |},
       [ConsoleError])
  end.

(** The answer of a store that holds the table [t]. *)
Definition answer (uid : string) (now : Z) (t : Table) : QueryOutcome :=
  Answered (Some (select_pending uid now t)) None.

(** The ways the query fails. *)
Inductive QueryFailure :=
| WithError (pendingData : option (list StoryRequest)) (error : string)
| Exception.

Definition failure (f : QueryFailure) : QueryOutcome :=
  match f with
  | WithError pendingData error => Answered pendingData (Some error)
  | Exception => Rejected
  end.

(** The button of the confirmation dialog the user presses. *)
Inductive Choice := Nein | Abbrechen.

(** How the delete of [handleCancelRequest] ends. *)
Inductive DeleteOutcome :=
| Deleted
| DeleteError (error : string)
| DeleteThrew.

(** [handleCancelRequest]: the confirmation dialog and, when the user
    confirms, the [onPress] of its destructive button. *)
Definition handleCancelRequest (requestId : string) (c : Choice)
    (o : DeleteOutcome) (st : State) : State * list Effect :=
  let dialog :=
    AlertShown "Erstellung abbrechen"
      "Möchtest du die Erstellung wirklich abbrechen? Verbrauchte Münzen werden nicht erstattet." in
  match c with
  | Nein => (st, [dialog])
  | Abbrechen =>
      match o with
      | Deleted =>
          ({| pendingRequests :=
                filter (λ r, id r ≠ requestId) (pendingRequests st);
              processedRequestIdRef := processedRequestIdRef st |},
           [dialog; DeleteRow requestId; LoadPendingRequests])
      | _ =>
          (st, [dialog; DeleteRow requestId; ConsoleError;
                AlertShown "Fehler" "Konnte nicht abgebrochen werden."])
      end
  end.

(** What can happen to a mounted home screen. A reconciliation is a call of
    [loadPendingRequests] (on focus, on a realtime change of the user's rows,
    after tracking a new request, after a cancellation) whose query ends:
    answered by the store from its table, or failed. *)
Inductive Event :=
| NewPendingRequestId (v : option string)
| Reconciled (t : Table) (now : Z)
| ReconcileFailed (f : QueryFailure)
| CancelPressed (requestId : string) (c : Choice) (o : DeleteOutcome).

Definition step (uid : string) (st : State) (ev : Event)
  : State * list Effect :=
  match ev with
  | NewPendingRequestId v => trackNewRequest v st
  | Reconciled t now => loadPendingRequests (answer uid now t) st
  | ReconcileFailed f => loadPendingRequests (failure f) st
  | CancelPressed rid c o => handleCancelRequest rid c o st
  end.

Fixpoint run (uid : string) (st : State) (evs : list Event)
  : State * list Effect :=
  match evs with
  | [] => (st, [])
  | ev :: evs' =>
      let '(st1, fx1) := step uid st ev in
      let '(st2, fx2) := run uid st1 evs' in
      (st2, fx1 ++ fx2)
  end.

(** The entries of a view for the request [rid]. *)
Definition entries_for (rid : string) (view : list StoryRequest)
  : list StoryRequest :=
  filter (λ r, id r = rid) view.

Definition is_alert (e : Effect) : bool :=
  match e with AlertShown _ _ => true | _ => false end.

(** Newest first, on the objects of a view. *)
Definition not_older (x y : StoryRequest) : Prop :=
  match created_at x, created_at y with
  | Some a, Some b => b ≤ a
  | _, _ => False
  end.

(** The non-terminal statuses as the specification lists them, with
    ['processing']; the query asks for [pending_statuses]. *)
Definition spec_non_terminal_statuses : list string :=
  ["queued"; "processing"; "generating_text"; "generating_images";
   "rendering_clips"].

End Home.

(** ** Sample data *)

Module Sample.
Import Remote Home.

(** A request of user [u1], created at time [1000], that the generating
    screen has set to ['processing']. *)
Definition processing_row : RowData :=
  mkRowData "u1" "processing" 1000 None None None.

(** A request of user [u1], created at time [0] and still ['queued']. *)
Definition stale_row : RowData :=
  mkRowData "u1" "queued" 0 None None None.

Definition table : Table :=
  <["r1" := processing_row]> (<["r2" := stale_row]> ∅).

(** The home screen after it has tracked the new request [r1]. *)
Definition tracked : State := (trackNewRequest (Some "r1") init).1.

(** Then a reconciliation fails. *)
Definition tracked_then_failed : State :=
  (loadPendingRequests (failure Exception) tracked).1.

End Sample.

(** ** More of the remote store *)

Module RemoteOps.
Import Remote.

(** [delete().eq('id', rid)], when the store accepts it. *)
Definition delete_eq_id (rid : string) (t : Table) : Table :=
  delete rid t.

End RemoteOps.

(** ** The generating screen: the effect on the status *)

Module GeneratingView.
Import Remote Js Generating.

(** An entry of [STATUS_CONFIG]; [progress] is in hundredths ([0.05] is
    [5]). *)
Record StatusConfig := mkStatusConfig {
  labelKey : string;
  icon : string;
  progress : Z
}.

Definition STATUS_CONFIG : gmap string StatusConfig :=
  list_to_map
    [("pending", mkStatusConfig "generating.pending" "⏳" 5);
     ("queued", mkStatusConfig "generating.queued" "⏳" 10);
     ("processing", mkStatusConfig "generating.processing" "⚙️" 15);
     ("generating_text", mkStatusConfig "generating.generatingText" "✍️" 30);
     ("generating_images", mkStatusConfig "generating.generatingImages" "🎨" 60);
     ("rendering_clips", mkStatusConfig "generating.renderingClips" "🎬" 85);
     ("finished", mkStatusConfig "generating.finished" "🎉" 100);
     ("failed", mkStatusConfig "generating.failed" "❌" 0)].

(** What the effect on [request?.status] does. *)
Inductive UiEffect :=
| AnimateProgress (toValue : Z)        (* Animated.timing(progressAnim, { toValue, ... }).start() *)
| FindStory (request_id : string)      (* from('stories').select('id').eq('request_id', ...).single() *)
| ReplaceRoute (path : string)         (* setTimeout(() => router.replace(path), 1500) *)
| NoConfig.                            (* the status is no key of STATUS_CONFIG: [config.progress] is read off no entry *)

(** [findAndNavigateToStory], with the answer [story] of its lookup (the id
    of the story of the request, if the lookup found one). *)
Definition findAndNavigateToStory (requestId : string) (story : option string)
  : list UiEffect :=
  FindStory requestId ::
  match story with
  | Some story_id => [ReplaceRoute ("/(app)/story/" +:+ story_id)]
  | None => []
  end.

(** The body of the effect, for the current [request]. *)
Definition statusEffect (requestId : string) (request : option StoryRequest)
    (story : option string) : list UiEffect :=
  match request with
  | Some r =>
      match STATUS_CONFIG !! status r with
      | Some config =>
          AnimateProgress (progress config) ::
          (if bool_decide (status r = "finished")
           then findAndNavigateToStory requestId story
           else [])
      | None => [NoConfig]
      end
  | None => []
  end.

(** [request?.status], the dependency of the effect. *)
Definition status_of (request : option StoryRequest) : option string :=
  status <$> request.

(** One event of the screen and the render that follows it: the effect runs
    if the status is not the one of the render before. *)
Definition step (requestId : string) (story : option string) (st : State)
    (ev : Event) : State * list UiEffect :=
  let st' := (Generating.step requestId st ev).1 in
  (st',
   if bool_decide (status_of (request st') = status_of (request st))
   then []
   else statusEffect requestId (request st') story).

(** A run of the screen; each event comes with the answer the story lookup
    would get then. *)
Fixpoint run (requestId : string) (st : State)
    (evs : list (Event * option string)) : State * list UiEffect :=
  match evs with
  | [] => (st, [])
  | (ev, story) :: evs' =>
      let '(st1, fx1) := step requestId story st ev in
      let '(st2, fx2) := run requestId st1 evs' in
      (st2, fx1 ++ fx2)
  end.

Definition is_lookup (e : UiEffect) : bool :=
  match e with FindStory _ => true | _ => false end.

Definition is_navigation (e : UiEffect) : bool :=
  match e with ReplaceRoute _ => true | _ => false end.

(** How often the story of the request was looked up. *)
Definition lookups (fx : list UiEffect) : nat :=
  length (filter (λ e, is_lookup e = true) fx).

(** The status an event delivers to the screen, if it delivers a request. *)
Definition delivered (ev : Event) : option string :=
  match ev with
  | LoadRequestResolved data _ => status_of data
  | RealtimeUpdate new => Some (status new)
  end.

End GeneratingView.

(** ** The older home screen, with one pending request *)

Module HomeLegacy.
Import Remote Js.

(** The statuses the query of [loadPendingRequest] asks for. *)
Definition pending_statuses : list string :=
  ["pending"; "queued"; "processing"; "generating_text"; "generating_images"].

(** The filters of the query: [.eq('user_id', uid)] and
    [.in('status', ...)]. *)
Definition matches (uid : string) (kd : string * RowData) : bool :=
  bool_decide (row_user_id kd.2 = uid)
  && bool_decide (row_status kd.2 ∈ pending_statuses).

(** The row the store answers with: the first of the matching rows, newest
    first ([.order('created_at', { ascending: false }).limit(1)
    .maybeSingle()]), or none. *)
Definition select_pending (uid : string) (t : Table) : option StoryRequest :=
  uncurry select_star
    <$> head (merge_sort Home.newer_first
                (filter (λ kd, matches uid kd = true) (map_to_list t))).

(** How the query ends: with [{ data, error }], or with an exception. *)
Inductive QueryOutcome :=
| Answered (pendingData : option StoryRequest) (error : option string)
| Rejected.

(** [loadPendingRequest] after its query has ended, on the state
    [pendingRequest]: the [error] branch and the [catch] block set it to
    [null]. *)
Definition loadPendingRequest (o : QueryOutcome)
    (pendingRequest : option StoryRequest) : option StoryRequest :=
  match o with
  | Answered pendingData None => pendingData
  | Answered _ (Some _) => None
  | Rejected => None
  end.

(** The answer of a store that holds the table [t]. *)
Definition answer (uid : string) (t : Table) : QueryOutcome :=
  Answered (select_pending uid t) None.

End HomeLegacy.

(** ** The home screen: the data it loads and the birthday check *)

Module HomeData.
Import Remote Js.

Section data.

(** The rows of [children], [stories] and [series] as the client gets them;
    of their fields the code reads the name of a child, the joined request
    status of a story ([story_requests], [null] for a story without request)
    and the joined episode count of a series ([series_episodes?.[0]?.count],
    if it is there). *)
Context {Child Story Series : Type}.
Context (child_name : Child → string).
Context (story_requests : Story → option string).
Context (series_episodes_count : Series → option Z).

Inductive Effect :=
| AlertShown (title text : string)
| ScheduleNotification (title body : string)
| ConsoleError.

Definition newline : string := String (Ascii.ascii_of_nat 10) "".

(** [names.join(', ')] *)
Definition join (names : list string) : string := String.concat ", " names.

(** [checkBirthdays]: the filter keeps no child ([return false]). *)
Definition checkBirthdays (childrenList : list Child) : list Effect :=
  let birthdayChildren := filter (λ child : Child, False) childrenList in
  if bool_decide (0 < length birthdayChildren)%nat
  then
    let names := join (child_name <$> birthdayChildren) in
    [AlertShown "🎂 Geburtstag!"
       ("Heute hat " +:+ names +:+ " Geburtstag! 🎉" +:+ newline +:+ newline
        +:+ "Wie wäre es mit einer besonderen Geburtstags-Geschichte?");
     ScheduleNotification "🎂 Geburtstag!"
       (names +:+ " hat heute Geburtstag! Erstelle eine besondere Geschichte.")]
  else [].

(** The state of the screen besides the pending requests. *)
Record State := mkState {
  children : list Child;
  recentStories : list Story;
  recentSeries : list (Series * Z);     (* { ...s, episode_count } *)
  isLoading : bool;
  birthdayCheckedRef : bool
}.

(** The effect on [children]: the birthdays are checked once per session,
    the first time there are children. *)
Definition onChildren (st : State) : State * list Effect :=
  if bool_decide (0 < length (children st))%nat && negb (birthdayCheckedRef st)
  then ({| children := children st;
           recentStories := recentStories st;
           recentSeries := recentSeries st;
           isLoading := isLoading st;
           birthdayCheckedRef := true |},
        checkBirthdays (children st))
  else (st, []).

(** A story is shown if it has no request or a finished one. *)
Definition shown (s : Story) : Prop :=
  story_requests s = None ∨ story_requests s = Some "finished".

#[global] Instance shown_dec (s : Story) : Decision (shown s) :=
  or_dec (decide (story_requests s = None))
         (decide (story_requests s = Some "finished")).

(** [storiesData.filter(...).slice(0, 3)] *)
Definition finishedStories (storiesData : list Story) : list Story :=
  take 3 (filter shown storiesData).

(** [s.series_episodes?.[0]?.count || 0] *)
Definition episode_count (s : Series) : Z :=
  match series_episodes_count s with
  | Some c => c
  | None => 0
  end.

Definition seriesWithCount (seriesData : list Series) : list (Series * Z) :=
  (λ s, (s, episode_count s)) <$> seriesData.

(** How an awaited query ends: with its [data] (or [null]), or with an
    exception. *)
Inductive Fetch (A : Type) :=
| Resolved (data : option A)
| Rejected.
Arguments Resolved {A} data.
Arguments Rejected {A}.

Definition set_isLoading (b : bool) (st : State) : State :=
  {| children := children st;
     recentStories := recentStories st;
     recentSeries := recentSeries st;
     isLoading := b;
     birthdayCheckedRef := birthdayCheckedRef st |}.

Definition set_children (c : list Child) (st : State) : State :=
  {| children := c;
     recentStories := recentStories st;
     recentSeries := recentSeries st;
     isLoading := isLoading st;
     birthdayCheckedRef := birthdayCheckedRef st |}.

Definition set_recentStories (l : list Story) (st : State) : State :=
  {| children := children st;
     recentStories := l;
     recentSeries := recentSeries st;
     isLoading := isLoading st;
     birthdayCheckedRef := birthdayCheckedRef st |}.

Definition set_recentSeries (l : list (Series * Z)) (st : State) : State :=
  {| children := children st;
     recentStories := recentStories st;
     recentSeries := l;
     isLoading := isLoading st;
     birthdayCheckedRef := birthdayCheckedRef st |}.

(** [if (data) set(f(data))] *)
Definition when_data {A} (data : option A) (set : A → State → State)
    (st : State) : State :=
  match data with
  | Some d => set d st
  | None => st
  end.

(** [loadData], from its call to its end, for the ways its three queries
    end and the way the query of [loadPendingRequests] ends ([pending]). The
    state of the pending requests is the second component of the state; the
    effects are those of [loadData] itself and those of the
    [loadPendingRequests] it awaits. A query that throws sends the rest of
    the [try] block to the [catch]. *)
Definition loadData (c : Fetch (list Child)) (s : Fetch (list Story))
    (e : Fetch (list Series)) (pending : Home.QueryOutcome)
    (st : State * Home.State)
  : (State * Home.State) * (list Effect * list Home.Effect) :=
  let st0 := set_isLoading true st.1 in
  match c with
  | Rejected => ((set_isLoading false st0, st.2), ([ConsoleError], []))
  | Resolved childrenData =>
      let st1 := when_data childrenData set_children st0 in
      match s with
      | Rejected => ((set_isLoading false st1, st.2), ([ConsoleError], []))
      | Resolved storiesData =>
          let st2 :=
            when_data storiesData
              (λ d, set_recentStories (finishedStories d)) st1 in
          match e with
          | Rejected => ((set_isLoading false st2, st.2), ([ConsoleError], []))
          | Resolved seriesData =>
              let st3 :=
                when_data seriesData
                  (λ d, set_recentSeries (seriesWithCount d)) st2 in
              ((set_isLoading false st3,
                (Home.loadPendingRequests pending st.2).1),
               ([], (Home.loadPendingRequests pending st.2).2))
          end
      end
  end.

End data.

Arguments Resolved {A} data.
Arguments Rejected {A}.

End HomeData.

(** ** The wizard store *)

Module Wizard.

Inductive StoryMode := single | series.

Record SeriesConfig := mkSeriesConfig {
  mode : string;
  plannedEpisodes : option Z;
  title : option string
}.

Record WizardState := mkWizardState {
  storyMode : StoryMode;
  seriesConfig : option SeriesConfig;
  selectedChildIds : list string;
  selectedCategoryId : option string;
  selectedCategoryCharacterIds : list string;
  selectedSideCharacterIds : list string;
  location : string;
  selectedMoralId : option string;
  length : string;
  generateImages : bool
}.

Definition initialState : WizardState :=
  {| storyMode := single;
     seriesConfig := None;
     selectedChildIds := [];
     selectedCategoryId := None;
     selectedCategoryCharacterIds := [];
     selectedSideCharacterIds := [];
     location := "";
     selectedMoralId := None;
     length := "normal";
     generateImages := true |}.

(** [ids.includes(id) ? ids.filter((i) => i !== id) : [...ids, id]] *)
Definition toggle (id : string) (ids : list string) : list string :=
  if bool_decide (id ∈ ids) then filter (λ i, i ≠ id) ids else ids ++ [id].

(** The actions of the store. *)
Inductive Action :=
| setStoryMode (m : StoryMode)
| setSeriesConfig (config : option SeriesConfig)
| setSelectedChildren (ids : list string)
| toggleChild (id : string)
| setCategory (id : option string)
| toggleCategoryCharacter (id : string)
| toggleSideCharacter (id : string)
| setLocation (l : string)
| setMoral (id : option string)
| setLength (l : string)
| setGenerateImages (value : bool)
| reset.

(** What an action sets: the keys it names, the rest of the state is
    kept. *)
Definition act (a : Action) (s : WizardState) : WizardState :=
  match a with
  | reset => initialState
  | _ =>
    {| storyMode :=
         match a with setStoryMode m => m | _ => storyMode s end;
       seriesConfig :=
         match a with setSeriesConfig c => c | _ => seriesConfig s end;
       selectedChildIds :=
         match a with
         | setSelectedChildren ids => ids
         | toggleChild id => toggle id (selectedChildIds s)
         | _ => selectedChildIds s
         end;
       selectedCategoryId :=
         match a with setCategory id => id | _ => selectedCategoryId s end;
       selectedCategoryCharacterIds :=
         match a with
         | setCategory _ => []      (* reset characters when category changes *)
         | toggleCategoryCharacter id =>
             toggle id (selectedCategoryCharacterIds s)
         | _ => selectedCategoryCharacterIds s
         end;
       selectedSideCharacterIds :=
         match a with
         | toggleSideCharacter id => toggle id (selectedSideCharacterIds s)
         | _ => selectedSideCharacterIds s
         end;
       location := match a with setLocation l => l | _ => location s end;
       selectedMoralId :=
         match a with setMoral id => id | _ => selectedMoralId s end;
       length := match a with setLength l => l | _ => length s end;
       generateImages :=
         match a with setGenerateImages v => v | _ => generateImages s end |}
  end.

(** A sequence of actions, the first one first. *)
Definition acts (l : list Action) (s : WizardState) : WizardState :=
  foldl (λ s a, act a s) s l.

(** An action that does not hand the store a list with a repeated id. *)
Definition well_formed (a : Action) : Prop :=
  match a with
  | setSelectedChildren ids => NoDup ids
  | _ => True
  end.

End Wizard.

(** ** The last step of the wizard *)

Module WizardLength.
Import Js.

(** What the screen has loaded for the summary; of a category the code
    reads [id], [name], [slug] (and [icon]), of a moral [slug]. *)
Record Category := mkCategory {
  cat_id : string;
  cat_name : string;
  cat_slug : string;
  cat_icon : string
}.

Record Moral := mkMoral {
  moral_slug : string
}.

(** The body of the call of [create-series]. *)
Record SeriesBody := mkSeriesBody {
  sb_title : option string;
  sb_child_ids : list string;
  sb_category : option (string * string * string);   (* { id, name, slug } *)
  sb_location_text : option string;
  sb_chosen_character_ids : list string;
  sb_chosen_category_character_ids : list string;
  sb_mode : string;
  sb_planned_episodes : option Z;
  sb_default_moral_key : option string;
  sb_default_length : string
}.

(** The row inserted into [story_requests]. *)
Record NewRequest := mkNewRequest {
  nr_user_id : string;
  nr_status : string;
  nr_category_id : option string;
  nr_location : option string;
  nr_moral_id : option string;
  nr_length : string;
  nr_notify_on_complete : bool;
  nr_generate_images : bool
}.

(** A row inserted into [story_request_characters]. *)
Inductive CharacterLink :=
| CategoryCharacter (story_request_id category_character_id : string)
| SideCharacter (story_request_id side_character_id : string).

Inductive Effect :=
| InvokeCreateSeries (body : SeriesBody)
| InsertRequest (r : NewRequest)
| InsertRequestChildren (rows : list (string * string))  (* story_request_id, child_id *)
| InsertRequestCharacters (rows : list CharacterLink)
| RouterReplace (path : string)
| ConsoleError
| AlertShown (title text : string).

(** [s || null] *)
Definition or_null (s : string) : option string :=
  if bool_decide (s = "") then None else Some s.

(** [v || null], for a string that may be missing. *)
Definition opt_or_null (v : option string) : option string :=
  if truthy v then v else None.

(** How the call of [create-series] ends: with the id of the series
    ([data.series.id]), with an error (returned, or thrown), or with neither
    (no [error], and a [data] without [series]). *)
Inductive SeriesOutcome :=
| SeriesCreated (series_id : string)
| SeriesFailed
| SeriesNoData.

(** How the insert of the request ends: with the id of the row, or with an
    error. *)
Inductive InsertOutcome :=
| RequestCreated (request_id : string)
| RequestFailed.

(** The [catch] block. *)
Definition failed (ws : Wizard.WizardState) : list Effect :=
  [ConsoleError;
   AlertShown "Fehler"
     (match Wizard.storyMode ws with
      | Wizard.series => "Die Serie konnte nicht erstellt werden."
      | Wizard.single => "Die Geschichte konnte nicht erstellt werden."
      end)].

(** The inserts that follow the insert of the request: one statement for
    each selection that is not empty. *)
Definition links (ws : Wizard.WizardState) (request_id : string)
  : list Effect :=
  (if bool_decide (Wizard.selectedChildIds ws = []) then []
   else [InsertRequestChildren
           ((λ childId, (request_id, childId))
              <$> Wizard.selectedChildIds ws)])
  ++ (if bool_decide (Wizard.selectedCategoryCharacterIds ws = []) then []
      else [InsertRequestCharacters
              (CategoryCharacter request_id
                 <$> Wizard.selectedCategoryCharacterIds ws)])
  ++ (if bool_decide (Wizard.selectedSideCharacterIds ws = []) then []
      else [InsertRequestCharacters
              (SideCharacter request_id
                 <$> Wizard.selectedSideCharacterIds ws)]).

(** The request the wizard inserts. *)
Definition new_request (user_id : string) (ws : Wizard.WizardState)
  : NewRequest :=
  {| nr_user_id := user_id;
     nr_status := "queued";
     nr_category_id := Wizard.selectedCategoryId ws;
     nr_location := or_null (Wizard.location ws);
     nr_moral_id := Wizard.selectedMoralId ws;
     nr_length := Wizard.length ws;
     nr_notify_on_complete := true;
     nr_generate_images := Wizard.generateImages ws |}.

Definition series_body (ws : Wizard.WizardState)
    (config : Wizard.SeriesConfig) (category : option Category)
    (moral : option Moral) : SeriesBody :=
  {| sb_title := opt_or_null (Wizard.title config);
     sb_child_ids := Wizard.selectedChildIds ws;
     sb_category := (λ c, (cat_id c, cat_name c, cat_slug c)) <$> category;
     sb_location_text := or_null (Wizard.location ws);
     sb_chosen_character_ids := Wizard.selectedSideCharacterIds ws;
     sb_chosen_category_character_ids :=
       Wizard.selectedCategoryCharacterIds ws;
     sb_mode := Wizard.mode config;
     sb_planned_episodes := Wizard.plannedEpisodes config;
     sb_default_moral_key := opt_or_null (moral_slug <$> moral);
     sb_default_length := Wizard.length ws |}.

(** [handleCreateStory], from the press to its end: the store and the
    [isLoading] flag it leaves, and what it did. [so] and [io] are how the
    call of [create-series] and the insert of the request end, if made. The
    inserts of the link rows are awaited and their results are not looked
    at; an insert of the request that ends without error has its row
    ([.select().single()]). *)
Definition handleCreateStory (user_id : string) (category : option Category)
    (moral : option Moral) (so : SeriesOutcome) (io : InsertOutcome)
    (ws : Wizard.WizardState)
  : (Wizard.WizardState * bool) * list Effect :=
  match Wizard.storyMode ws, Wizard.seriesConfig ws with
  | Wizard.series, Some config =>
      let call := InvokeCreateSeries (series_body ws config category moral) in
      match so with
      | SeriesCreated series_id =>
          ((Wizard.act Wizard.reset ws, true),
           [call; RouterReplace ("/(app)/series/" +:+ series_id)])
      | SeriesFailed => ((ws, false), call :: failed ws)
      | SeriesNoData =>
          (* [reset()] has run when reading [data.series.id] throws *)
          ((Wizard.act Wizard.reset ws, false), call :: failed ws)
      end
  | _, _ =>
      let insert := InsertRequest (new_request user_id ws) in
      match io with
      | RequestCreated request_id =>
          ((Wizard.act Wizard.reset ws, true),
           insert :: links ws request_id
           ++ [RouterReplace ("/(app)/generating/" +:+ request_id)])
      | RequestFailed => ((ws, false), insert :: failed ws)
      end
  end.

Definition is_route (e : Effect) : bool :=
  match e with RouterReplace _ => true | _ => false end.

Definition is_link (e : Effect) : bool :=
  match e with
  | InsertRequestChildren _ | InsertRequestCharacters _ => true
  | _ => false
  end.

End WizardLength.

(** ** The banners of the home screen *)

Module HomeBanner.
Import Remote Js.

(** The status line of the banner of a pending request: the texts of the
    four [status === ... && t(...)] that render. *)
Definition statusTexts (pendingRequest : StoryRequest) : list string :=
  (if bool_decide (status pendingRequest = "queued")
   then ["home.waitingStart"] else [])
  ++ (if bool_decide (status pendingRequest = "generating_text")
      then ["home.generatingText"] else [])
  ++ (if bool_decide (status pendingRequest = "generating_images")
      then ["home.generatingImages"] else [])
  ++ (if bool_decide (status pendingRequest = "rendering_clips")
      then ["home.renderingClips"] else []).

End HomeBanner.

(** ** More sample data *)

Module SampleMore.
Import Remote Js.




(** A request of another user, [u2], and the same request later. *)
Definition other_row : RowData :=
  mkRowData "u2" "queued" 1000 None None None.

Definition other_row_later : RowData :=
  mkRowData "u2" "generating_text" 1000 None None None.

Definition table_with_other : Table := <["r9" := other_row]> Sample.table.

End SampleMore.

(** * Properties of the generating screen *)

(** An explicit list does not hold an element that differs from each of its
    members. *)
Ltac not_in_list :=
  let Hin := fresh "Hin" in
  intros Hin;
  repeat (apply elem_of_cons in Hin as [Hin|Hin]; [discriminate Hin|]);
  by apply elem_of_nil in Hin.

Section generating.
Import Remote Js Generating.

Variable requestId : string.

Lemma invocations_app (fx1 fx2 : list Effect) :
  invocations (fx1 ++ fx2) = (invocations fx1 + invocations fx2)%nat.
Proof. unfold invocations. by rewrite filter_app, length_app. Qed.

(** One run of [startStoryGeneration] calls the edge function once. *)
Lemma invocations_startStoryGeneration (o : InvokeOutcome) :
  invocations (startStoryGeneration requestId o) = 1%nat.
Proof.
  unfold startStoryGeneration.
  destruct o as [[error|]|error|]; simpl; repeat case_match; reflexivity.
Qed.

(** [loadRequest] never clears the marker, and sets it when it does
    anything to the outside. *)
Lemma loadRequest_marker data o st :
  (hasStartedGeneration st = true →
   hasStartedGeneration (loadRequest requestId data o st).1 = true)
  ∧ ((loadRequest requestId data o st).2 ≠ [] →
     hasStartedGeneration (loadRequest requestId data o st).1 = true).
Proof.
  unfold loadRequest. destruct data as [d|]; simpl; [|by split].
  destruct (bool_decide (status d = "queued") && negb (hasStartedGeneration st));
    simpl; by split.
Qed.

(** With the marker set, [loadRequest] does nothing to the outside. *)
Lemma loadRequest_started data o st :
  hasStartedGeneration st = true → (loadRequest requestId data o st).2 = [].
Proof.
  intros Hs. unfold loadRequest. destruct data as [d|]; [|done].
  by rewrite Hs, andb_false_r.
Qed.

Lemma step_started ev st :
  hasStartedGeneration st = true →
  hasStartedGeneration (step requestId st ev).1 = true
  ∧ (step requestId st ev).2 = [].
Proof.
  intros Hs. destruct ev as [data o|new]; simpl; [|done].
  split; [exact (proj1 (loadRequest_marker data o st) Hs) | by apply loadRequest_started].
Qed.

(** Once the marker is set, no later event makes the screen act. *)
Lemma run_started evs : ∀ st,
  hasStartedGeneration st = true → (run requestId st evs).2 = [].
Proof.
  induction evs as [|ev evs IH]; intros st Hs; [done|].
  simpl. destruct (step_started ev st Hs) as [Hm Hfx].
  destruct (step requestId st ev) as [st1 fx1]; simpl in *.
  specialize (IH st1 Hm).
  destruct (run requestId st1 evs) as [st2 fx2]; simpl in *.
  by subst.
Qed.

Lemma step_invocations ev st :
  (invocations (step requestId st ev).2 ≤ 1)%nat.
Proof.
  destruct ev as [data o|new]; simpl; [|unfold invocations; simpl; lia].
  unfold loadRequest. destruct data as [d|]; [|unfold invocations; simpl; lia].
  case_match; simpl; [|unfold invocations; simpl; lia].
  by rewrite invocations_startStoryGeneration.
Qed.

Lemma run_invocations evs : ∀ st,
  (invocations (run requestId st evs).2 ≤ 1)%nat.
Proof.
  induction evs as [|ev evs IH]; intros st; [unfold invocations; simpl; lia|].
  simpl.
  pose proof (step_invocations ev st) as H1.
  pose proof (run_started evs (step requestId st ev).1) as Hrest.
  specialize (IH (step requestId st ev).1).
  destruct (step requestId st ev) as [st1 fx1] eqn:Hstep; simpl in *.
  destruct (run requestId st1 evs) as [st2 fx2]; simpl in *.
  rewrite invocations_app.
  destruct (decide (fx1 = [])) as [->|Hne]; [unfold invocations at 1; simpl; lia|].
  assert (hasStartedGeneration st1 = true) as Hm.
  { destruct ev as [data o|new]; simpl in Hstep.
    - pose proof (proj2 (loadRequest_marker data o st)) as Hl.
      rewrite Hstep in Hl. by apply Hl.
    - by inversion Hstep; subst. }
  rewrite (Hrest Hm). unfold invocations at 2; simpl. lia.
Qed.

(** Every call of the edge function the screen makes is for its request. *)
Lemma run_invoke_own evs : ∀ st e,
  e ∈ (run requestId st evs).2 → is_invoke e = true →
  e = Invoke "create-story" requestId.
Proof.
  induction evs as [|ev evs IH]; intros st e; simpl; [by intros ?%elem_of_nil|].
  specialize (IH (step requestId st ev).1 e).
  destruct (step requestId st ev) as [st1 fx1] eqn:Hstep; simpl in *.
  destruct (run requestId st1 evs) as [st2 fx2]; simpl in *.
  intros [Hin|Hin]%elem_of_app Hinv; [|by auto].
  destruct ev as [data o|new]; simpl in Hstep; [|inversion Hstep; subst; by apply elem_of_nil in Hin].
  unfold loadRequest in Hstep. destruct data as [d|]; [|inversion Hstep; subst; by apply elem_of_nil in Hin].
  case_match; inversion Hstep; subst; [|by apply elem_of_nil in Hin].
  unfold startStoryGeneration in Hin.
  apply elem_of_app in Hin as [Hin|Hin].
  - apply elem_of_cons in Hin as [->|Hin]; [done|].
    apply elem_of_cons in Hin as [->|Hin]; [done|]. by apply elem_of_nil in Hin.
  - destruct o as [[error|]|error|]; repeat case_match;
      repeat (apply elem_of_cons in Hin as [->|Hin]; [done|]);
      by apply elem_of_nil in Hin.
Qed.

(** ** C1 *)

(** C1. Within one lifetime of the generating screen (any sequence of
    answers to [loadRequest] and of realtime updates, from the mount on), the
    edge function that starts the generation is called at most once, and only
    for the request of the screen. The call that makes it has set the
    [hasStartedGeneration] marker, and a [loadRequest] that finds the marker
    set does nothing to the outside, whatever the store answers. *)
Theorem start_invoked_at_most_once (evs : list Event) :
  (invocations (run requestId init evs).2 ≤ 1)%nat
  ∧ (∀ e, e ∈ (run requestId init evs).2 → is_invoke e = true →
          e = Invoke "create-story" requestId)
  ∧ (∀ data o st,
       (loadRequest requestId data o st).2 ≠ [] →
       hasStartedGeneration (loadRequest requestId data o st).1 = true)
  ∧ (∀ data o st,
       hasStartedGeneration st = true →
       (loadRequest requestId data o st).2 = []
       ∧ hasStartedGeneration (loadRequest requestId data o st).1 = true).
Proof.
  split; [apply run_invocations|].
  split; [intros e; apply run_invoke_own|].
  split.
  - intros data o st. exact (proj2 (loadRequest_marker data o st)).
  - intros data o st Hs. split; [by apply loadRequest_started|].
    exact (proj1 (loadRequest_marker data o st) Hs).
Qed.

(** ** C8 *)

(** C8. A request observed in a status other than ['queued'] (so also in
    the terminal statuses ['finished'] and ['failed']) never makes
    [loadRequest] start the generation: the call only stores the loaded
    request, does nothing to the outside and leaves the marker as it is; and
    a screen whose loads never observe ['queued'] never calls the edge
    function. *)
Theorem no_start_unless_queued (d : StoryRequest) (o : InvokeOutcome)
    (st : State) :
  status d ≠ "queued" →
  loadRequest requestId (Some d) o st
  = ({| request := Some d;
        hasStartedGeneration := hasStartedGeneration st |}, [])
  ∧ (∀ evs, Forall not_queued evs → (run requestId st evs).2 = []).
Proof.
  intros Hq. split.
  - unfold loadRequest. by rewrite bool_decide_false.
  - intros evs. revert st. induction evs as [|ev evs IH]; intros st Hall; [done|].
    apply Forall_cons in Hall as [Hev Hall]. simpl.
    assert ((step requestId st ev).2 = []) as Hfx.
    { destruct ev as [[d'|] o'|new]; simpl in *; try done.
      unfold loadRequest. by rewrite bool_decide_false. }
    specialize (IH (step requestId st ev).1 Hall).
    destruct (step requestId st ev) as [st1 fx1]; simpl in *.
    destruct (run requestId st1 evs) as [st2 fx2]; simpl in *.
    by subst.
Qed.


(** ** Timeouts *)




(** ** C6 *)

(** C6. When the call of the edge function returns an error that is not a
    timeout, [startStoryGeneration] reports it and writes the status
    ['failed'] with the message of that error to the row of the request; the
    screen shows the failure once the row reaches it (through the realtime
    update or a reload); and nothing is tried again: the screen makes no
    further call of the edge function, whatever happens later. *)
Theorem hard_error_recorded_as_failed (error : FunctionsError) :
  fe_name error ≠ "FunctionsFetchError" →
  startStoryGeneration requestId (Returned (Some error))
  = [UpdateRow requestId processing;
     Invoke "create-story" requestId;
     ConsoleError;
     UpdateRow requestId (failed (fe_message error))]
  ∧ (∀ (t : Table) d,
       t !! requestId = Some d →
       ∃ d', (apply_effects
                (startStoryGeneration requestId (Returned (Some error))) t)
               !! requestId = Some d'
             ∧ row_status d' = "failed"
             ∧ row_error_message d' = Some (fe_message error)
             ∧ (∀ st,
                  isFailed (onUpdate (select_star requestId d') st) = true
                  ∧ errorText (onUpdate (select_star requestId d') st)
                    = (if bool_decide (fe_message error = "")
                       then None else Some (fe_message error))
                  ∧ ∀ o,
                      isFailed
                        (loadRequest requestId
                           (Some (select_star requestId d')) o st).1 = true))
  ∧ (∀ d st evs,
       status d = "queued" → hasStartedGeneration st = false →
       (loadRequest requestId (Some d) (Returned (Some error)) st).2
       = startStoryGeneration requestId (Returned (Some error))
       ∧ (run requestId
            (loadRequest requestId (Some d) (Returned (Some error)) st).1
            evs).2 = []).
Proof.
  intros Hname.
  assert (startStoryGeneration requestId (Returned (Some error))
          = [UpdateRow requestId processing;
             Invoke "create-story" requestId;
             ConsoleError;
             UpdateRow requestId (failed (fe_message error))]) as Hfx.
  { unfold startStoryGeneration. by rewrite bool_decide_false. }
  split; [done|]. split.
  - intros t d Hd. rewrite Hfx. unfold apply_effects; simpl.
    unfold update_eq_id. rewrite !lookup_alter_eq, Hd. simpl.
    eexists. split; [done|]. split; [done|]. split; [done|].
    intros st. split; [done|]. split.
    + unfold errorText, isFailed; simpl.
      by destruct (bool_decide (fe_message error = "")).
    + intros o. unfold loadRequest, isFailed; simpl. done.
  - intros d st evs Hd Hs. unfold loadRequest.
    rewrite Hd, Hs. simpl. split; [done|].
    by apply run_started.
Qed.

End generating.

Section generating_instances.
Import Remote Js Generating.

(** Two [loadRequest] calls in flight at once (mount and focus), both
    answered with the request still ['queued'], even with a realtime update in
    between: the edge function is called once. *)
Example two_loads_one_start :
  invocations
    (run "r1" init
       [LoadRequestResolved (Some (Home.placeholder "r1")) (Returned None);
        RealtimeUpdate (Home.placeholder "r1");
        LoadRequestResolved (Some (Home.placeholder "r1")) (Returned None)]).2
  = 1%nat.
Proof. reflexivity. Qed.

Lemma no_start_unless_queued_witness :
  status (Home.placeholder "r1") = "queued"
  ∧ loadRequest "r1" (Some (select_star "r1" (mkRowData "u1" "finished" 0 None None None)))
      (Returned None) init
    = ({| request := Some (select_star "r1" (mkRowData "u1" "finished" 0 None None None));
          hasStartedGeneration := false |}, []).
Proof.
  split; [reflexivity|].
  apply (no_start_unless_queued "r1"
           (select_star "r1" (mkRowData "u1" "finished" 0 None None None))
           (Returned None) init).
  simpl. discriminate.
Defined.

Lemma hard_error_recorded_as_failed_witness :
  fe_name (mkFunctionsError "FunctionsHttpError" "Edge Function returned a non-2xx status code")
  ≠ "FunctionsFetchError"
  ∧ startStoryGeneration "r1"
      (Returned (Some (mkFunctionsError "FunctionsHttpError" "Edge Function returned a non-2xx status code")))
    = [UpdateRow "r1" processing;
       Invoke "create-story" "r1";
       ConsoleError;
       UpdateRow "r1" (failed "Edge Function returned a non-2xx status code")].
Proof.
  split; [discriminate|].
  apply (hard_error_recorded_as_failed "r1"
           (mkFunctionsError "FunctionsHttpError" "Edge Function returned a non-2xx status code")).
  discriminate.
Defined.

End generating_instances.

(** * Properties of the home screen *)

Section home.
Import Remote Js Home.

Variable uid : string.

#[local] Instance newer_first_total : Total newer_first.
Proof. intros x y. unfold newer_first. lia. Qed.

#[local] Instance newer_first_trans : Transitive newer_first.
Proof. intros x y z. unfold newer_first. lia. Qed.

(** The rows the query keeps, before they are ordered. *)
Lemma matches_spec now k d :
  matches uid now (k, d) = true
  ↔ row_user_id d = uid
    ∧ row_status d ∈ pending_statuses
    ∧ tenMinutesAgo now ≤ row_created_at d.
Proof.
  unfold matches; simpl.
  rewrite !andb_true_iff, !bool_decide_eq_true. tauto.
Qed.

(** The answer of the store holds exactly the rows of the table that pass
    the three filters. *)
Lemma elem_of_select_pending now (t : Table) r :
  r ∈ select_pending uid now t
  ↔ ∃ k d, t !! k = Some d ∧ r = select_star k d
           ∧ row_user_id d = uid
           ∧ row_status d ∈ pending_statuses
           ∧ tenMinutesAgo now ≤ row_created_at d.
Proof.
  unfold select_pending. rewrite list_elem_of_fmap. split.
  - intros [[k d] [-> Hin]]. rewrite merge_sort_Permutation in Hin.
    apply list_elem_of_filter in Hin as [Hm Hin].
    apply elem_of_map_to_list in Hin. apply matches_spec in Hm.
    exists k, d. by simpl.
  - intros (k & d & Hkd & -> & Hm). exists (k, d). split; [done|].
    rewrite merge_sort_Permutation. apply list_elem_of_filter.
    split; [by apply matches_spec|by apply elem_of_map_to_list].
Qed.

(** The ids of the answer are those of the rows kept. *)
Lemma select_pending_ids now (t : Table) :
  id <$> select_pending uid now t
  = (merge_sort newer_first
       (filter (λ kd, matches uid now kd = true) (map_to_list t))).*1.
Proof.
  unfold select_pending. rewrite <- list_fmap_compose.
  apply list_fmap_ext. by intros _ [k d] _.
Qed.

(** The table is keyed by id, so no id comes twice in an answer. *)
Lemma NoDup_select_pending now (t : Table) :
  NoDup (id <$> select_pending uid now t).
Proof.
  rewrite select_pending_ids, merge_sort_Permutation.
  eapply sublist_NoDup; [apply (NoDup_fst_map_to_list t)|].
  apply fmap_sublist, sublist_filter.
Qed.

(** The answer is ordered newest first. *)
Lemma Sorted_select_pending now (t : Table) :
  StronglySorted not_older (select_pending uid now t).
Proof.
  unfold select_pending.
  apply StronglySorted_fmap with (R1 := newer_first).
  - by intros [k1 d1] [k2 d2] H.
  - apply StronglySorted_merge_sort; apply _.
Qed.

(** In a view without a repeated id, a request has at most one entry. *)
Lemma entries_for_NoDup rid (view : list StoryRequest) :
  NoDup (id <$> view) → (length (entries_for rid view) ≤ 1)%nat.
Proof.
  unfold entries_for. induction view as [|r view IH]; simpl; [lia|].
  intros [Hr Hnd]%NoDup_cons. specialize (IH Hnd).
  rewrite filter_cons. destruct (decide (id r = rid)) as [<-|]; [|done].
  simpl. enough (filter (λ r', id r' = id r) view = []) as -> by (simpl; lia).
  destruct (filter (λ r', id r' = id r) view) as [|r' l] eqn:Hf; [done|].
  exfalso. apply Hr.
  assert (r' ∈ filter (λ r', id r' = id r) view) as Hin by (rewrite Hf; left).
  apply list_elem_of_filter in Hin as [<- Hin]. by apply list_elem_of_fmap_2.
Qed.

(** Dropping the entries of a request keeps the ids distinct. *)
Lemma NoDup_ids_filter rid (view : list StoryRequest) :
  NoDup (id <$> view) → NoDup (id <$> filter (λ r, id r ≠ rid) view).
Proof.
  intros Hnd. eapply sublist_NoDup; [exact Hnd|].
  apply fmap_sublist, sublist_filter.
Qed.

(** The updater of the tracking effect leaves one entry for its request,
    the placeholder, whatever the view was. *)
Lemma entries_for_addPlaceholder rid (prev : list StoryRequest) :
  entries_for rid (addPlaceholder rid prev) = [placeholder rid].
Proof.
  unfold entries_for, addPlaceholder.
  rewrite filter_cons_True by done. f_equal.
  induction prev as [|r prev IH]; [done|].
  rewrite (filter_cons (λ r, id r ≠ rid)).
  destruct (decide (id r ≠ rid)) as [Hne|Heq]; [|done].
  by rewrite filter_cons_False.
Qed.

Lemma NoDup_addPlaceholder rid (prev : list StoryRequest) :
  NoDup (id <$> prev) → NoDup (id <$> addPlaceholder rid prev).
Proof.
  intros Hnd. unfold addPlaceholder. rewrite fmap_cons. apply NoDup_cons. split.
  - intros (r & Hr & Hin)%list_elem_of_fmap.
    apply list_elem_of_filter in Hin as [Hne _]. by apply Hne.
  - by apply NoDup_ids_filter.
Qed.

(** Each operation of the home screen keeps the ids of the view distinct. *)
Lemma step_NoDup ev st :
  NoDup (id <$> pendingRequests st) →
  NoDup (id <$> pendingRequests (step uid st ev).1).
Proof.
  intros Hnd. destruct ev as [v|t now|f|rid c o]; simpl.
  - unfold trackNewRequest. destruct v as [rid|]; [|done].
    case_match; [|done]. simpl. by apply NoDup_addPlaceholder.
  - apply NoDup_select_pending.
  - destruct f; simpl; constructor.
  - unfold handleCancelRequest. destruct c; [done|].
    destruct o; simpl; try done. by apply NoDup_ids_filter.
Qed.

Lemma run_NoDup evs : ∀ st,
  NoDup (id <$> pendingRequests st) →
  NoDup (id <$> pendingRequests (run uid st evs).1).
Proof.
  induction evs as [|ev evs IH]; intros st Hnd; [done|].
  simpl. pose proof (step_NoDup ev st Hnd) as H1.
  specialize (IH (step uid st ev).1 H1).
  destruct (step uid st ev) as [st1 fx1]; simpl in *.
  by destruct (run uid st1 evs) as [st2 fx2].
Qed.

(** ** C2 *)

(** C2. A reconciliation answered by the store replaces the view by the
    answer: exactly the requests of the user whose status is one of
    ['queued'], ['generating_text'], ['generating_images'],
    ['rendering_clips'] and that were created within the last ten minutes,
    each once, newest first. A request in status ['processing'] is not in
    it. *)
Theorem reconcile_replaces_view (now : Z) (t : Table) (st : State) :
  pendingRequests (loadPendingRequests (answer uid now t) st).1
  = select_pending uid now t
  ∧ (∀ r,
       r ∈ pendingRequests (loadPendingRequests (answer uid now t) st).1
       ↔ ∃ k d, t !! k = Some d ∧ r = select_star k d
                ∧ row_user_id d = uid
                ∧ row_status d ∈
                    ["queued"; "generating_text"; "generating_images";
                     "rendering_clips"]
                ∧ now - 10 * 60 * 1000 ≤ row_created_at d)
  ∧ NoDup (id <$> pendingRequests (loadPendingRequests (answer uid now t) st).1)
  ∧ StronglySorted not_older
      (pendingRequests (loadPendingRequests (answer uid now t) st).1)
  ∧ (∀ k d r,
       t !! k = Some d → row_status d = "processing" →
       r ∈ pendingRequests (loadPendingRequests (answer uid now t) st).1 →
       id r ≠ k).
Proof.
  simpl. split; [done|]. split; [apply elem_of_select_pending|].
  split; [apply NoDup_select_pending|].
  split; [apply Sorted_select_pending|].
  intros k d r Hk Hst (k' & d' & Hk' & -> & _ & Hin & _)%elem_of_select_pending.
  simpl. intros ->. rewrite Hk in Hk'. injection Hk' as <-.
  rewrite Hst in Hin. revert Hin. unfold pending_statuses. not_in_list.
Qed.

(** ** The window of the list *)


(** ** C4 *)

(** C4. Tracking a request twice in a row, with a non-empty id that is not
    the one the screen tracked last, leaves exactly one entry for it, the
    placeholder, at the head of the view, whatever the view was: the first
    call inserts it and records the id as tracked; the second call is
    skipped by the guard on the recorded id: it returns the state the first
    call left, with no effect, so the view stays as the first call left it,
    which is the view a replacement of the entry would give. A call with the
    id tracked last does nothing at all. *)
Theorem track_twice_one_entry (rid : string) (st : State) :
  rid ≠ "" →
  (processedRequestIdRef st ≠ Some rid →
   entries_for rid
     (pendingRequests
        (trackNewRequest (Some rid) (trackNewRequest (Some rid) st).1).1)
   = [placeholder rid]
   ∧ pendingRequests
       (trackNewRequest (Some rid) (trackNewRequest (Some rid) st).1).1
     = pendingRequests (trackNewRequest (Some rid) st).1
   ∧ pendingRequests (trackNewRequest (Some rid) st).1
     = addPlaceholder rid (pendingRequests st)
   ∧ addPlaceholder rid (addPlaceholder rid (pendingRequests st))
     = addPlaceholder rid (pendingRequests st)
   ∧ trackNewRequest (Some rid) st
     = ({| pendingRequests := addPlaceholder rid (pendingRequests st);
           processedRequestIdRef := Some rid |},
        [ConsoleLog; SetNewPendingRequestId None; LoadPendingRequests])
   ∧ trackNewRequest (Some rid) (trackNewRequest (Some rid) st).1
     = ((trackNewRequest (Some rid) st).1, []))
  ∧ (processedRequestIdRef st = Some rid →
     trackNewRequest (Some rid) st = (st, [])).
Proof.
  intros Hrid. split.
  - intros Href.
    assert (trackNewRequest (Some rid) st
            = ({| pendingRequests := addPlaceholder rid (pendingRequests st);
                  processedRequestIdRef := Some rid |},
               [ConsoleLog; SetNewPendingRequestId None; LoadPendingRequests]))
      as H1.
    { unfold trackNewRequest, truthy.
      rewrite (bool_decide_false (rid = "")) by done.
      rewrite (bool_decide_false (Some rid = _)) by congruence. done. }
    rewrite !H1. cbn [fst].
    assert (trackNewRequest (Some rid)
              {| pendingRequests := addPlaceholder rid (pendingRequests st);
                 processedRequestIdRef := Some rid |}
            = ({| pendingRequests := addPlaceholder rid (pendingRequests st);
                  processedRequestIdRef := Some rid |}, [])) as H2.
    { unfold trackNewRequest. simpl.
      rewrite (bool_decide_true (Some rid = Some rid)) by done.
      by rewrite andb_false_r. }
    rewrite !H2. cbn [fst pendingRequests].
    split; [apply entries_for_addPlaceholder|]. split; [done|]. split; [done|].
    split; [|by split].
    unfold addPlaceholder at 1 3. f_equal.
    unfold addPlaceholder. rewrite filter_cons_False by (simpl; tauto).
    rewrite list_filter_filter. apply list_filter_iff. tauto.
  - intros Href. unfold trackNewRequest. rewrite Href.
    rewrite (bool_decide_true (Some rid = Some rid)) by done.
    by rewrite andb_false_r.
Qed.

(** ** C7 *)

(** C7. When the query of a reconciliation fails (an error in the answer,
    or an exception), the view is emptied; the failure is logged with
    [console.error] and no alert is shown. *)
Theorem failed_reconcile_empties_view (f : QueryFailure) (st : State) :
  pendingRequests (loadPendingRequests (failure f) st).1 = []
  ∧ processedRequestIdRef (loadPendingRequests (failure f) st).1
    = processedRequestIdRef st
  ∧ ConsoleError ∈ (loadPendingRequests (failure f) st).2
  ∧ Forall (λ e, is_alert e = false) (loadPendingRequests (failure f) st).2.
Proof.
  destruct f as [pendingData error|]; simpl.
  - split; [done|]. split; [done|]. split; [|by repeat constructor].
    right; left.
  - split; [done|]. split; [done|]. split; [|by repeat constructor].
    left.
Qed.

(** ** C9 *)

(** C9. When the delete of a cancellation fails (an error in the answer, or
    an exception), the screen shows the alert ['Fehler'] and leaves its state
    as it is, so the request stays in the view; the view changes only when
    the user has confirmed and the delete has succeeded, and then the request
    is dropped from it. *)
Theorem cancel_failure_keeps_view (requestId : string) (o : DeleteOutcome)
    (st : State) :
  o ≠ Deleted →
  (handleCancelRequest requestId Abbrechen o st).1 = st
  ∧ AlertShown "Fehler" "Konnte nicht abgebrochen werden."
      ∈ (handleCancelRequest requestId Abbrechen o st).2
  ∧ (∀ c o',
       pendingRequests (handleCancelRequest requestId c o' st).1
       ≠ pendingRequests st →
       c = Abbrechen ∧ o' = Deleted)
  ∧ pendingRequests (handleCancelRequest requestId Abbrechen Deleted st).1
    = filter (λ r, id r ≠ requestId) (pendingRequests st).
Proof.
  intros Ho. split; [by destruct o|]. split.
  - destruct o; [done| |]; simpl; do 3 right; left.
  - split; [|done]. intros c o' Hne.
    destruct c; [done|]. destruct o'; done.
Qed.

(** ** C10 *)

(** C10. In every state the home screen reaches by tracking new requests,
    reconciling (with an answer of the store, or a failed query) and
    cancelling, in any order, the view holds at most one entry for each
    request id: no id comes twice. *)
Theorem view_one_entry_per_id (evs : list Event) :
  NoDup (id <$> pendingRequests (run uid init evs).1)
  ∧ ∀ rid,
      (length (entries_for rid (pendingRequests (run uid init evs).1)) ≤ 1)%nat.
Proof.
  assert (NoDup (id <$> pendingRequests (run uid init evs).1)) as Hnd.
  { apply run_NoDup. simpl. constructor. }
  split; [done|]. intros rid. by apply entries_for_NoDup.
Qed.

End home.

Section home_instances.
Import Remote Js Home.

(** C2, as the specification words it, fails: the request [r1] of user
    [u1], in status ['processing'] and created at the very time of the
    reconciliation, is not in the reconciled view, which holds the queued
    request [r2] only. *)
Lemma reconcile_drops_processing :
  Sample.table !! "r1" = Some Sample.processing_row
  ∧ row_user_id Sample.processing_row = "u1"
  ∧ row_status Sample.processing_row ∈ spec_non_terminal_statuses
  ∧ 1000 - 10 * 60 * 1000 ≤ row_created_at Sample.processing_row
  ∧ pendingRequests
      (loadPendingRequests (answer "u1" 1000 Sample.table) init).1
    = [select_star "r2" Sample.stale_row]
  ∧ select_star "r1" Sample.processing_row
      ∉ pendingRequests
          (loadPendingRequests (answer "u1" 1000 Sample.table) init).1.
Proof.
  split; [reflexivity|]. split; [reflexivity|].
  split; [right; left|]. split; [simpl; lia|].
  assert (pendingRequests
            (loadPendingRequests (answer "u1" 1000 Sample.table) init).1
          = [select_star "r2" Sample.stale_row])
    as Hview by (vm_compute; reflexivity).
  split; [exact Hview|]. rewrite Hview.
  intros Hin%list_elem_of_singleton. discriminate Hin.
Qed.

(** C4, as the specification words it, fails: the home screen tracks the
    new request [r1], a reconciliation fails and empties the view, and the
    request is handed over again: the view has no entry for it, after one
    more call and after two. *)
Lemma track_again_after_failed_reconcile :
  Sample.tracked_then_failed
  = (run "u1" init
       [NewPendingRequestId (Some "r1"); ReconcileFailed Exception]).1
  ∧ entries_for "r1"
      (pendingRequests
         (trackNewRequest (Some "r1") Sample.tracked_then_failed).1) = []
  ∧ length
      (entries_for "r1"
         (pendingRequests
            (trackNewRequest (Some "r1")
               (trackNewRequest (Some "r1") Sample.tracked_then_failed).1).1))
    ≠ 1%nat.
Proof.
  split; [reflexivity|]. split; [reflexivity|].
  vm_compute. discriminate.
Qed.

Lemma track_twice_one_entry_witness :
  "r1" ≠ ""
  ∧ processedRequestIdRef init ≠ Some "r1"
  ∧ entries_for "r1"
      (pendingRequests
         (trackNewRequest (Some "r1") (trackNewRequest (Some "r1") init).1).1)
    = [placeholder "r1"]
  ∧ trackNewRequest (Some "r1") (trackNewRequest (Some "r1") init).1
    = ((trackNewRequest (Some "r1") init).1, []).
Proof.
  split; [discriminate|]. split; [discriminate|].
  split; apply (track_twice_one_entry "r1" init); discriminate.
Defined.

(** C7, as the specification words it, fails: a failed query does not leave
    the view as it was, it empties it. *)
Lemma failed_reconcile_changes_view :
  pendingRequests Sample.tracked = [placeholder "r1"]
  ∧ pendingRequests (loadPendingRequests (failure Exception) Sample.tracked).1
    ≠ pendingRequests Sample.tracked
  ∧ pendingRequests
      (loadPendingRequests (failure (WithError None "timeout")) Sample.tracked).1
    ≠ pendingRequests Sample.tracked.
Proof.
  split; [reflexivity|]. split; vm_compute; discriminate.
Qed.

Lemma cancel_failure_keeps_view_witness :
  DeleteError "permission denied" ≠ Deleted
  ∧ (handleCancelRequest "r1" Abbrechen (DeleteError "permission denied")
       Sample.tracked).1 = Sample.tracked.
Proof.
  split; [discriminate|].
  apply (cancel_failure_keeps_view "r1" (DeleteError "permission denied")
           Sample.tracked).
  discriminate.
Defined.

End home_instances.

(** * More of the generating screen *)

Section generating_more.
Import Remote Js Generating.

Variable requestId : string.

(** The message written with a caught error is never empty: the default
    stands in for a missing or empty one. *)
Lemma message_or_default_nonempty (e : Thrown) : message_or_default e ≠ "".
Proof.
  unfold message_or_default, truthy.
  destruct (message e) as [m|]; simpl; [|discriminate].
  destruct (bool_decide (m = "")) eqn:Hm; simpl; [discriminate|].
  by apply bool_decide_eq_false in Hm.
Qed.

(** X1. A value caught by [startStoryGeneration] that is no timeout, and
    neither [undefined] nor [null], is reported and written to the row as
    ['failed'], with its message if it has a non-empty one and with
    ['Unbekannter Fehler'] otherwise; the message written is never empty. A
    caught [undefined] or [null] is reported and nothing is written for it
    (reading its message throws): the row stays ['processing']. *)
Theorem caught_error_recorded_as_failed (e : Thrown) :
  caught_timeout e = false →
  startStoryGeneration requestId (Threw e)
  = [UpdateRow requestId processing;
     Invoke "create-story" requestId;
     ConsoleError;
     UpdateRow requestId (failed (message_or_default e))]
  ∧ message_or_default e ≠ ""
  ∧ (∀ m, message e = Some m → m ≠ "" → message_or_default e = m)
  ∧ (message e = None ∨ message e = Some "" →
     message_or_default e = "Unbekannter Fehler")
  ∧ startStoryGeneration requestId ThrewNullish
    = [UpdateRow requestId processing;
       Invoke "create-story" requestId;
       ConsoleError]
  ∧ (∀ (t : Table) d,
       t !! requestId = Some d →
       row_status
         <$> apply_effects (startStoryGeneration requestId ThrewNullish) t
             !! requestId
       = Some "processing").
Proof.
  intros Ht. split; [unfold startStoryGeneration; by rewrite Ht|].
  split; [apply message_or_default_nonempty|]. split; [|split; [|split]].
  - intros m Hm Hne. unfold message_or_default, truthy. rewrite Hm.
    by rewrite bool_decide_false.
  - intros [Hm|Hm]; unfold message_or_default; by rewrite Hm.
  - done.
  - intros t d Hd. unfold apply_effects; simpl. unfold update_eq_id.
    by rewrite lookup_alter_eq, Hd.
Qed.

Lemma apply_effect_other (t : Table) (e : Effect) (k : string) :
  (∀ p, e ≠ UpdateRow k p) → apply_effect t e !! k = t !! k.
Proof.
  intros He. destruct e as [rid p| | |]; simpl; try done.
  unfold update_eq_id. rewrite lookup_alter_ne; [done|].
  intros ->. by apply (He p).
Qed.

(** X2. Whatever the outcome, [startStoryGeneration] touches the row of its
    request only: every other row is as before, no row is created, and the
    row of the request ends as ['processing'] or ['failed'], with its owner
    and its creation time unchanged. *)
Theorem start_touches_own_row_only (o : InvokeOutcome) (t : Table) :
  (∀ k, k ≠ requestId →
        apply_effects (startStoryGeneration requestId o) t !! k = t !! k)
  ∧ (t !! requestId = None →
     apply_effects (startStoryGeneration requestId o) t = t)
  ∧ (∀ d, t !! requestId = Some d →
          ∃ d', apply_effects (startStoryGeneration requestId o) t !! requestId
                = Some d'
                ∧ (row_status d' = "processing" ∨ row_status d' = "failed")
                ∧ row_user_id d' = row_user_id d
                ∧ row_created_at d' = row_created_at d
                ∧ row_is_episode d' = row_is_episode d
                ∧ row_episode_number d' = row_episode_number d).
Proof.
  assert (∀ fx k, k ≠ requestId →
            Forall (λ e, ∀ p, e ≠ UpdateRow k p) fx →
            ∀ t', foldl apply_effect t' fx !! k = t' !! k) as Hother.
  { intros fx k Hk. induction 1 as [|e fx He _ IH]; intros t'; [done|].
    simpl. rewrite IH. by apply apply_effect_other. }
  assert (Forall (λ e, ∀ k, k ≠ requestId → ∀ p, e ≠ UpdateRow k p)
            (startStoryGeneration requestId o)) as Hown.
  { unfold startStoryGeneration.
    destruct o as [[error|]|error|]; simpl; repeat case_match;
      repeat constructor; intros k Hk p; congruence. }
  split; [|split].
  - intros k Hk. apply Hother; [done|].
    eapply Forall_impl; [exact Hown|]. intros e He. by apply He.
  - intros Hnone. apply map_eq. intros k.
    destruct (decide (k = requestId)) as [->|Hk].
    + rewrite Hnone. unfold startStoryGeneration, apply_effects.
      destruct o as [[error|]|error|]; simpl; repeat case_match; simpl;
        unfold update_eq_id; by rewrite ?lookup_alter_eq, ?Hnone.
    + apply Hother; [done|].
      eapply Forall_impl; [exact Hown|]. intros e He. by apply He.
  - intros d Hd. unfold startStoryGeneration, apply_effects.
    destruct o as [[error|]|error|]; simpl; repeat case_match; simpl;
      unfold update_eq_id; rewrite ?lookup_alter_eq, ?Hd; simpl;
      eexists; (split; [done|]); simpl; tauto.
Qed.

End generating_more.

Section generating_more_instances.
Import Remote Js Generating.

Lemma caught_error_recorded_as_failed_witness :
  caught_timeout (mkThrown (Some "TypeError") None) = false
  ∧ startStoryGeneration "r1" (Threw (mkThrown (Some "TypeError") None))
    = [UpdateRow "r1" processing;
       Invoke "create-story" "r1";
       ConsoleError;
       UpdateRow "r1" (failed "Unbekannter Fehler")].
Proof.
  split; [reflexivity|].
  apply (caught_error_recorded_as_failed "r1" (mkThrown (Some "TypeError") None)).
  reflexivity.
Defined.

End generating_more_instances.

(** * The effect on the status of the generating screen *)

Section generating_view.
Import Remote Js Generating GeneratingView.

Variable requestId : string.

(** The body of the effect looks up and opens a story for a finished
    request only. *)
Lemma statusEffect_finished request story e :
  e ∈ statusEffect requestId request story →
  is_lookup e = true ∨ is_navigation e = true →
  status_of request = Some "finished"
  ∧ (is_lookup e = true → e = FindStory requestId)
  ∧ (is_navigation e = true →
     ∃ story_id, story = Some story_id
                 ∧ e = ReplaceRoute ("/(app)/story/" +:+ story_id)).
Proof.
  unfold statusEffect. destruct request as [r|]; [|by intros ?%elem_of_nil].
  destruct (STATUS_CONFIG !! status r) as [config|].
  - intros [->|Hin]%elem_of_cons; [by intros [?|?]|].
    case_bool_decide as Hst; [|by apply elem_of_nil in Hin].
    intros _. split; [simpl; by rewrite Hst|].
    unfold findAndNavigateToStory in Hin.
    apply elem_of_cons in Hin as [->|Hin]; [by split|].
    destruct story as [story_id|]; [|by apply elem_of_nil in Hin].
    apply list_elem_of_singleton in Hin as ->. split; [done|]. by eauto.
  - intros ->%list_elem_of_singleton. by intros [?|?].
Qed.

Lemma lookups_statusEffect request story :
  (lookups (statusEffect requestId request story) ≤ 1)%nat.
Proof.
  unfold statusEffect, lookups. destruct request as [r|]; [|simpl; lia].
  destruct (STATUS_CONFIG !! status r); [|simpl; lia].
  case_bool_decide; [|simpl; lia].
  destruct story; simpl; lia.
Qed.

(** What an event delivers is what the screen holds after it. *)
Lemma step_delivered story st ev :
  (delivered ev = None → step requestId story st ev = (st, []))
  ∧ (∀ s, delivered ev = Some s →
          status_of (request (step requestId story st ev).1) = Some s).
Proof.
  destruct ev as [[d|] o|new]; simpl.
  - split; [done|]. intros s [= <-]. unfold step; simpl.
    unfold loadRequest. by case_match.
  - split; [|done]. intros _. unfold step; simpl.
    by rewrite bool_decide_true.
  - split; [done|]. by intros s [= <-].
Qed.

(** X3. The story is looked up, and opened, only by an event that changes the
    status the screen holds to ['finished']: the lookup is for the request of
    the screen and the route opened is that of the story found. A failed
    request, or an update that repeats ['finished'], opens nothing. *)
Theorem navigation_only_on_finished (story : option string) (st : State)
    (ev : Event) (e : UiEffect) :
  e ∈ (step requestId story st ev).2 →
  is_lookup e = true ∨ is_navigation e = true →
  status_of (request (step requestId story st ev).1) = Some "finished"
  ∧ status_of (request st) ≠ Some "finished"
  ∧ (is_lookup e = true → e = FindStory requestId)
  ∧ (is_navigation e = true →
     ∃ story_id, story = Some story_id
                 ∧ e = ReplaceRoute ("/(app)/story/" +:+ story_id)).
Proof.
  unfold step at 1. cbn [snd]. case_bool_decide as Hsame.
  { by intros ?%elem_of_nil. }
  intros Hin Hkind.
  destruct (statusEffect_finished _ _ _ Hin Hkind) as (Hfin & Hl & Hn).
  split; [done|]. split; [|done].
  intros Hbefore. apply Hsame. by rewrite Hbefore.
Qed.

Lemma run_cons ev story evs st :
  (run requestId st ((ev, story) :: evs)).2
  = (step requestId story st ev).2
    ++ (run requestId (step requestId story st ev).1 evs).2.
Proof.
  cbn [run]. destruct (step requestId story st ev) as [st1 fx1].
  cbn [fst snd]. by destruct (run requestId st1 evs) as [st2 fx2].
Qed.

Lemma step_effects story st ev :
  (step requestId story st ev).2
  = if bool_decide (status_of (request (step requestId story st ev).1)
                    = status_of (request st))
    then []
    else statusEffect requestId (request (step requestId story st ev).1) story.
Proof. done. Qed.

(** X4. While the events deliver ['finished'] (or nothing), the story is looked
    up at most once, by the first of them; a screen that holds a finished
    request already does nothing. *)
Theorem finished_seen_once (evs : list (Event * option string)) : ∀ st,
  Forall (λ es, delivered es.1 = Some "finished" ∨ delivered es.1 = None) evs →
  (lookups (run requestId st evs).2 ≤ 1)%nat
  ∧ (status_of (request st) = Some "finished" →
     (run requestId st evs).2 = []).
Proof.
  induction evs as [|[ev story] evs IH]; intros st Hall.
  { split; [unfold lookups; simpl; lia|done]. }
  apply Forall_cons in Hall as [Hev Hall]. cbn [fst] in Hev.
  destruct (step_delivered story st ev) as [Hnone Hsome].
  rewrite run_cons. destruct Hev as [Hfin|Hno].
  - specialize (Hsome _ Hfin).
    destruct (IH (step requestId story st ev).1 Hall) as [_ Hrest].
    rewrite (Hrest Hsome), app_nil_r, step_effects. split.
    + case_bool_decide; [unfold lookups; simpl; lia|].
      apply lookups_statusEffect.
    + intros Hbefore. rewrite bool_decide_true; [done|].
      by rewrite Hsome, Hbefore.
  - rewrite (Hnone Hno). cbn [fst snd app]. by apply IH.
Qed.

End generating_view.

Section generating_view_instances.
Import Remote Js Generating GeneratingView.

Lemma navigation_only_on_finished_witness :
  ReplaceRoute "/(app)/story/s1"
    ∈ (step "r1" (Some "s1") init
         (RealtimeUpdate
            (select_star "r1" (mkRowData "u1" "finished" 0 None None None)))).2
  ∧ status_of (request init) ≠ Some "finished".
Proof.
  assert (ReplaceRoute "/(app)/story/s1"
            ∈ (step "r1" (Some "s1") init
                 (RealtimeUpdate
                    (select_star "r1"
                       (mkRowData "u1" "finished" 0 None None None)))).2)
    as Hin by (vm_compute; do 2 right; left).
  split; [exact Hin|].
  apply (navigation_only_on_finished "r1" (Some "s1") init
           (RealtimeUpdate
              (select_star "r1" (mkRowData "u1" "finished" 0 None None None)))
           (ReplaceRoute "/(app)/story/s1")).
  - exact Hin.
  - right. reflexivity.
Defined.

Lemma finished_seen_once_witness :
  (lookups
     (run "r1" init
        [(RealtimeUpdate
            (select_star "r1" (mkRowData "u1" "finished" 0 None None None)),
          Some "s1");
         (LoadRequestResolved
            (Some (select_star "r1"
                     (mkRowData "u1" "finished" 0 None None None)))
            (Returned None),
          Some "s1")]).2 ≤ 1)%nat.
Proof.
  apply (finished_seen_once "r1").
  repeat constructor.
Defined.

End generating_view_instances.

(** * More of the home screen *)

Section home_more.
Import Remote RemoteOps Js Home.

Variable uid : string.

Lemma entries_for_absent rid (view : list StoryRequest) :
  (∀ r, r ∈ view → id r ≠ rid) → entries_for rid view = [].
Proof.
  unfold entries_for. induction view as [|r view IH]; intros Hall; [done|].
  rewrite filter_cons_False.
  - apply IH. intros r' Hr'. apply Hall. by right.
  - apply Hall. by left.
Qed.

Lemma entries_for_present (r : StoryRequest) (view : list StoryRequest) :
  NoDup (id <$> view) → r ∈ view → entries_for (id r) view = [r].
Proof.
  unfold entries_for. induction view as [|r' view IH]; [by intros _ ?%elem_of_nil|].
  rewrite fmap_cons. intros [Hnotin Hnd]%NoDup_cons [->|Hin]%elem_of_cons.
  - rewrite filter_cons_True by done. f_equal.
    apply (entries_for_absent (id r') view).
    intros r Hr Heq. apply Hnotin. rewrite <- Heq. by apply list_elem_of_fmap_2.
  - rewrite filter_cons_False; [by apply IH|].
    intros Heq. apply Hnotin. rewrite Heq. by apply list_elem_of_fmap_2.
Qed.

(** The entries of a request in an answer of the store: its row, if the
    query keeps it. *)
Lemma entries_for_select_pending rid now (t : Table) :
  entries_for rid (select_pending uid now t)
  = match t !! rid with
    | Some d => if matches uid now (rid, d) then [select_star rid d] else []
    | None => []
    end.
Proof.
  destruct (t !! rid) as [d|] eqn:Hrid.
  - destruct (matches uid now (rid, d)) eqn:Hm.
    + apply (entries_for_present (select_star rid d)).
      * apply NoDup_select_pending.
      * apply elem_of_select_pending. exists rid, d.
        apply matches_spec in Hm. tauto.
    + apply entries_for_absent.
      intros r (k & d' & Hk & -> & Hm')%elem_of_select_pending. simpl.
      intros ->. rewrite Hrid in Hk. injection Hk as <-.
      assert (matches uid now (rid, d) = true) as Hm''
        by (by apply matches_spec).
      congruence.
  - apply entries_for_absent.
    intros r (k & d' & Hk & -> & _)%elem_of_select_pending. simpl.
    intros ->. by rewrite Hrid in Hk.
Qed.

(** X5. A reconciliation answered by the store decides alone what the view
    shows of a request just tracked: the placeholder is gone; the stored row
    stands in its place if the query keeps it (the row is the user's, in one
    of the four statuses asked for, not older than ten minutes), and nothing
    otherwise. *)
Theorem reconcile_supersedes_placeholder (rid : string) (now : Z)
    (t : Table) (st : State) :
  entries_for rid
    (pendingRequests
       (loadPendingRequests (answer uid now t)
          (trackNewRequest (Some rid) st).1).1)
  = match t !! rid with
    | Some d => if matches uid now (rid, d) then [select_star rid d] else []
    | None => []
    end.
Proof. simpl. apply entries_for_select_pending. Qed.

(** X6. After a confirmed cancellation whose delete succeeds, the request has
    no entry in the view and the other entries are all kept; a later
    reconciliation answered from the table without the row shows no entry for
    it either, and shows of the other requests what it would have shown. *)
Theorem cancelled_request_gone (requestId : string) (now : Z) (t : Table)
    (st st' : State) :
  entries_for requestId
    (pendingRequests (handleCancelRequest requestId Abbrechen Deleted st).1)
  = []
  ∧ (∀ r, id r ≠ requestId →
          (r ∈ pendingRequests
                 (handleCancelRequest requestId Abbrechen Deleted st).1
           ↔ r ∈ pendingRequests st))
  ∧ entries_for requestId
      (pendingRequests
         (loadPendingRequests
            (answer uid now (delete_eq_id requestId t)) st').1) = []
  ∧ (∀ r, id r ≠ requestId →
          (r ∈ pendingRequests
                 (loadPendingRequests
                    (answer uid now (delete_eq_id requestId t)) st').1
           ↔ r ∈ pendingRequests
                   (loadPendingRequests (answer uid now t) st').1)).
Proof.
  simpl. split; [|split; [|split]].
  - apply entries_for_absent. by intros r [? _]%list_elem_of_filter.
  - intros r Hr. rewrite list_elem_of_filter. tauto.
  - rewrite entries_for_select_pending. unfold delete_eq_id.
    by rewrite lookup_delete_eq.
  - intros r Hr. rewrite !elem_of_select_pending. unfold delete_eq_id.
    split.
    + intros (k & d & Hk & Hrest). exists k, d. split; [|done].
      apply lookup_delete_Some in Hk. tauto.
    + intros (k & d & Hk & -> & Hrest). exists k, d. split; [|done].
      apply lookup_delete_Some. split; [|done]. intros <-. by apply Hr.
Qed.

(** X7. The view after a reconciliation is the answer of that reconciliation,
    whatever happened before it (the last one to end wins, nothing of the
    earlier view is merged in); after a failed one it is empty. *)
Theorem last_reconciliation_wins (evs : list Event) (now : Z) (t : Table)
    (f : QueryFailure) :
  pendingRequests (run uid init (evs ++ [Reconciled t now])).1
  = select_pending uid now t
  ∧ pendingRequests (run uid init (evs ++ [ReconcileFailed f])).1 = [].
Proof.
  assert (∀ ev st,
            pendingRequests (run uid st (evs ++ [ev])).1
            = pendingRequests (step uid (run uid st evs).1 ev).1) as Hlast.
  { intros ev. induction evs as [|ev' evs' IH]; intros st.
    - simpl. by destruct (step uid st ev).
    - simpl. destruct (step uid st ev') as [st1 fx1].
      specialize (IH st1).
      destruct (run uid st1 (evs' ++ [ev])) as [st2 fx2].
      destruct (run uid st1 evs') as [st3 fx3]. done. }
  rewrite !Hlast. simpl. split; [done|]. by destruct f.
Qed.

(** X8. The rows of other users do not count: storing or changing a row of
    another user under an id that is not the user's, or deleting it, leaves
    the answer of the store with the same requests. *)
Theorem other_users_rows_ignored (now : Z) (t : Table) (k : string)
    (d : RowData) :
  row_user_id d ≠ uid →
  (∀ d0, t !! k = Some d0 → row_user_id d0 ≠ uid) →
  select_pending uid now (<[k := d]> t) ≡ₚ select_pending uid now t
  ∧ select_pending uid now (delete_eq_id k t) ≡ₚ select_pending uid now t.
Proof.
  intros Hd Hk.
  assert (∀ t' : Table, NoDup (select_pending uid now t')) as Hnd.
  { intros t'. eapply NoDup_fmap_1. apply NoDup_select_pending. }
  split; (apply NoDup_Permutation; [apply Hnd|apply Hnd|]); intros r;
    rewrite !elem_of_select_pending; unfold delete_eq_id.
  - split.
    + intros (k' & d' & Hk' & Hr & Hu & Hrest).
      apply lookup_insert_Some in Hk' as [[<- <-]|[Hne Hk']]; [done|].
      by exists k', d'.
    + intros (k' & d' & Hk' & Hr & Hu & Hrest). exists k', d'.
      split; [|done]. rewrite lookup_insert_ne; [done|].
      intros <-. by apply (Hk d').
  - split.
    + intros (k' & d' & Hk' & Hrest). exists k', d'. split; [|done].
      apply lookup_delete_Some in Hk'. tauto.
    + intros (k' & d' & Hk' & Hr & Hu & Hrest). exists k', d'.
      split; [|done]. apply lookup_delete_Some. split; [|done].
      intros <-. by apply (Hk d').
Qed.

End home_more.

Section home_more_instances.
Import Remote RemoteOps Js Home.

Lemma other_users_rows_ignored_witness :
  row_user_id SampleMore.other_row_later ≠ "u1"
  ∧ <["r9" := SampleMore.other_row_later]> SampleMore.table_with_other
    ≠ SampleMore.table_with_other
  ∧ delete_eq_id "r9" SampleMore.table_with_other
    ≠ SampleMore.table_with_other
  ∧ select_pending "u1" 1000 SampleMore.table_with_other
    = [select_star "r2" Sample.stale_row]
  ∧ select_pending "u1" 1000
      (<["r9" := SampleMore.other_row_later]> SampleMore.table_with_other)
    ≡ₚ select_pending "u1" 1000 SampleMore.table_with_other
  ∧ select_pending "u1" 1000 (delete_eq_id "r9" SampleMore.table_with_other)
    ≡ₚ select_pending "u1" 1000 SampleMore.table_with_other.
Proof.
  split; [discriminate|].
  split.
  { intros Heq. apply (f_equal (λ m : Table, m !! "r9")) in Heq.
    vm_compute in Heq. discriminate Heq. }
  split.
  { intros Heq. apply (f_equal (λ m : Table, m !! "r9")) in Heq.
    vm_compute in Heq. discriminate Heq. }
  split; [vm_compute; reflexivity|].
  apply (other_users_rows_ignored "u1" 1000 SampleMore.table_with_other "r9"
           SampleMore.other_row_later).
  - discriminate.
  - intros d0 Hd0. vm_compute in Hd0. injection Hd0 as <-. discriminate.
Defined.

End home_more_instances.

(** * The older home screen *)

Section home_legacy.
Import Remote Js HomeLegacy.

Variable uid : string.

#[local] Existing Instance newer_first_total.
#[local] Existing Instance newer_first_trans.

Lemma legacy_matches_spec k d :
  matches uid (k, d) = true
  ↔ row_user_id d = uid ∧ row_status d ∈ pending_statuses.
Proof.
  unfold matches; simpl. by rewrite andb_true_iff, !bool_decide_eq_true.
Qed.

(** The older screen shows none exactly when no row of the user is in one
    of the statuses asked for. *)
Lemma legacy_select_None (t : Table) :
  select_pending uid t = None
  ↔ ∀ k d, t !! k = Some d →
           ¬ (row_user_id d = uid ∧ row_status d ∈ pending_statuses).
Proof.
  unfold select_pending. rewrite fmap_None, head_None. split.
  - intros Hnil k d Hk Hm.
    assert ((k, d) ∈ merge_sort Home.newer_first
              (filter (λ kd, matches uid kd = true) (map_to_list t))) as Hin.
    { rewrite merge_sort_Permutation. apply list_elem_of_filter.
      split; [by apply legacy_matches_spec|by apply elem_of_map_to_list]. }
    rewrite Hnil in Hin. by apply elem_of_nil in Hin.
  - intros Hnone.
    destruct (merge_sort Home.newer_first
                (filter (λ kd, matches uid kd = true) (map_to_list t)))
      as [|[k d] l] eqn:Hl; [done|].
    exfalso.
    assert ((k, d) ∈ merge_sort Home.newer_first
              (filter (λ kd, matches uid kd = true) (map_to_list t))) as Hin
      by (rewrite Hl; left).
    rewrite merge_sort_Permutation in Hin.
    apply list_elem_of_filter in Hin as [Hm Hin].
    apply elem_of_map_to_list in Hin. apply legacy_matches_spec in Hm.
    by apply (Hnone k d).
Qed.

(** The request the older screen shows is the newest of the rows of the
    user in the statuses asked for. *)
Lemma legacy_select_Some (t : Table) (r : StoryRequest) :
  select_pending uid t = Some r →
  ∃ k d, t !! k = Some d ∧ r = select_star k d
         ∧ row_user_id d = uid
         ∧ row_status d ∈ pending_statuses
         ∧ ∀ k' d', t !! k' = Some d' →
                    row_user_id d' = uid →
                    row_status d' ∈ pending_statuses →
                    row_created_at d' ≤ row_created_at d.
Proof.
  unfold select_pending.
  pose proof (StronglySorted_merge_sort Home.newer_first
                (filter (λ kd, matches uid kd = true) (map_to_list t)))
    as Hsorted.
  assert (∀ kd, kd ∈ merge_sort Home.newer_first
                  (filter (λ kd, matches uid kd = true) (map_to_list t))
                ↔ matches uid kd = true ∧ t !! kd.1 = Some kd.2) as Hmem.
  { intros [k d]. rewrite merge_sort_Permutation, list_elem_of_filter.
    by rewrite elem_of_map_to_list. }
  destruct (merge_sort Home.newer_first
              (filter (λ kd, matches uid kd = true) (map_to_list t)))
    as [|[k d] l]; [done|].
  intros [= <-]. exists k, d.
  destruct (proj1 (Hmem (k, d))) as [Hm Hk]; [left|].
  apply legacy_matches_spec in Hm as [Hu Hs].
  split; [done|]. split; [done|]. split; [done|]. split; [done|].
  intros k' d' Hk' Hu' Hs'.
  assert ((k', d') ∈ (k, d) :: l) as Hin.
  { apply Hmem. split; [by apply legacy_matches_spec|done]. }
  apply elem_of_cons in Hin as [[= -> ->]|Hin]; [done|].
  apply StronglySorted_inv in Hsorted as [_ Hall].
  rewrite Forall_forall in Hall. by apply (Hall (k', d')).
Qed.

(** X9. The older home screen shows one pending request, the newest of the
    user's requests that are ['pending'], ['queued'], ['processing'],
    ['generating_text'] or ['generating_images'], however old it is; it
    shows none exactly when the user has no such request, or when the query
    fails. *)
Theorem legacy_shows_newest (t : Table) (prev : option StoryRequest) :
  loadPendingRequest (answer uid t) prev = select_pending uid t
  ∧ (select_pending uid t = None
     ↔ ∀ k d, t !! k = Some d →
              ¬ (row_user_id d = uid ∧ row_status d ∈ pending_statuses))
  ∧ (∀ r, select_pending uid t = Some r →
          ∃ k d, t !! k = Some d ∧ r = select_star k d
                 ∧ row_user_id d = uid
                 ∧ row_status d ∈ pending_statuses
                 ∧ ∀ k' d', t !! k' = Some d' →
                            row_user_id d' = uid →
                            row_status d' ∈ pending_statuses →
                            row_created_at d' ≤ row_created_at d)
  ∧ (∀ pendingData error,
       loadPendingRequest (Answered pendingData (Some error)) prev = None)
  ∧ loadPendingRequest Rejected prev = None.
Proof.
  split; [done|]. split; [apply legacy_select_None|].
  split; [apply legacy_select_Some|by split].
Qed.

End home_legacy.

(** * The data of the home screen *)

Section home_data.
Import Remote Js HomeData.

Context {Child Story Series : Type}.
Context (child_name : Child → string).
Context (story_requests : Story → option string).
Context (series_episodes_count : Series → option Z).

Lemma filter_nothing (l : list Child) : filter (λ _ : Child, False) l = [].
Proof.
  induction l as [|x l IH]; [done|].
  rewrite filter_cons. by destruct (decide False).
Qed.

(** X10. The birthday check never finds a birthday: for any children it shows
    no alert and schedules no notification, at the first load of the
    children as at any later one. *)
Theorem birthdays_never_announced (childrenList : list Child)
    (st : State (Child := Child) (Story := Story) (Series := Series)) :
  checkBirthdays child_name childrenList = []
  ∧ (onChildren child_name st).2 = [].
Proof.
  assert (∀ l, checkBirthdays child_name l = []) as Hcheck.
  { intros l. unfold checkBirthdays. by rewrite filter_nothing. }
  split; [apply Hcheck|]. unfold onChildren.
  case_match; [apply Hcheck|done].
Qed.

(** X11. The recent stories are the first three of the fetched stories that have
    no request or a finished one, in the order fetched: at most three, none
    with an unfinished request, and all of them if there are no more than
    three. *)
Theorem recent_stories_finished (storiesData : list Story) :
  (length (finishedStories story_requests storiesData) ≤ 3)%nat
  ∧ Forall (shown story_requests) (finishedStories story_requests storiesData)
  ∧ finishedStories story_requests storiesData `sublist_of` storiesData
  ∧ finishedStories story_requests storiesData
      `prefix_of` filter (shown story_requests) storiesData
  ∧ ((length (filter (shown story_requests) storiesData) ≤ 3)%nat →
     ∀ s, s ∈ storiesData → shown story_requests s →
          s ∈ finishedStories story_requests storiesData).
Proof.
  unfold finishedStories. split; [rewrite length_take; lia|]. split.
  - apply Forall_forall. intros s Hs.
    assert (s ∈ filter (shown story_requests) storiesData) as Hin.
    { eapply elem_of_sublist; [exact Hs|apply sublist_take]. }
    by apply list_elem_of_filter in Hin as [? _].
  - split; [|split].
    + etrans; [apply sublist_take|apply sublist_filter].
    + exists (drop 3 (filter (shown story_requests) storiesData)).
      by rewrite take_drop.
    + intros Hlen s Hs Hshown. rewrite take_ge by done.
      by apply list_elem_of_filter.
Qed.

(** X12. [loadData] always ends with the loading flag off. If no query throws,
    it ends with the pending requests reconciled; if one throws, the error is
    logged and the pending requests are left as they were. A stories query
    that answers [null] leaves the recent stories as they were, and one that
    answers with stories (after a children query that did not throw) sets
    them to the first three finished ones. *)
Theorem loadData_ends_loading (c : Fetch (list Child))
    (s : Fetch (list Story)) (e : Fetch (list Series))
    (pending : Home.QueryOutcome)
    (st : State (Child := Child) (Story := Story) (Series := Series)
          * Home.State) :
  isLoading
    (loadData story_requests series_episodes_count c s e pending st).1.1
  = false
  ∧ birthdayCheckedRef
      (loadData story_requests series_episodes_count c s e pending st).1.1
    = birthdayCheckedRef st.1
  ∧ (∀ cd sd ed,
       c = Resolved cd → s = Resolved sd → e = Resolved ed →
       (loadData story_requests series_episodes_count c s e pending st).1.2
       = (Home.loadPendingRequests pending st.2).1
       ∧ (loadData story_requests series_episodes_count c s e pending st).2.1
         = [])
  ∧ (c = Rejected ∨ s = Rejected ∨ e = Rejected →
     (loadData story_requests series_episodes_count c s e pending st).1.2
     = st.2
     ∧ (loadData story_requests series_episodes_count c s e pending st).2
       = ([ConsoleError], []))
  ∧ (s = Resolved None →
     recentStories
       (loadData story_requests series_episodes_count c s e pending st).1.1
     = recentStories st.1)
  ∧ (∀ cd sd,
       c = Resolved cd → s = Resolved (Some sd) →
       recentStories
         (loadData story_requests series_episodes_count c s e pending st).1.1
       = finishedStories story_requests sd).
Proof.
  destruct st as [st hst].
  split; [by destruct c as [[?|]|], s as [[?|]|], e as [[?|]|]|].
  split; [by destruct c as [[?|]|], s as [[?|]|], e as [[?|]|]|].
  split; [by intros cd sd ed -> -> ->|].
  split.
  - destruct c as [cd|]; [|done]. destruct s as [sd|]; [|done].
    destruct e as [ed|]; [|done]. by intros [?|[?|?]].
  - split.
    + intros ->. by destruct c as [[?|]|], e as [[?|]|].
    + intros cd sd -> ->. by destruct cd, e as [[?|]|].
Qed.

End home_data.

(** * The wizard store *)

Section wizard.

Lemma elem_of_toggle (id j : string) (ids : list string) :
  j ∈ Wizard.toggle id ids ↔ (j = id ∧ id ∉ ids) ∨ (j ≠ id ∧ j ∈ ids).
Proof.
  unfold Wizard.toggle. case_bool_decide as Hin.
  - rewrite list_elem_of_filter.
    destruct (decide (j = id)) as [->|Hne]; tauto.
  - rewrite elem_of_app, list_elem_of_singleton.
    destruct (decide (j = id)) as [->|Hne]; tauto.
Qed.

(** X13. Toggling an id flips whether it is selected and leaves every other id
    as it was. *)
Theorem toggle_flips_membership (id : string) (ids : list string) :
  (id ∈ Wizard.toggle id ids ↔ id ∉ ids)
  ∧ ∀ j, j ≠ id → (j ∈ Wizard.toggle id ids ↔ j ∈ ids).
Proof.
  split.
  - rewrite elem_of_toggle. intuition congruence.
  - intros j Hj. rewrite elem_of_toggle. tauto.
Qed.

Lemma NoDup_toggle (id : string) (ids : list string) :
  NoDup ids → NoDup (Wizard.toggle id ids).
Proof.
  intros Hnd. unfold Wizard.toggle. case_bool_decide as Hin.
  - by apply NoDup_filter.
  - apply NoDup_app. split; [done|]. split; [|apply NoDup_singleton].
    intros j Hj ->%list_elem_of_singleton. done.
Qed.

(** X14. On a selection without repeated ids, toggling keeps the ids distinct;
    toggling the same id twice gives back the same selection, in the same
    order if the id was not selected, and with the id moved to the end if it
    was. *)
Theorem toggle_twice (id : string) (ids : list string) :
  NoDup ids →
  NoDup (Wizard.toggle id ids)
  ∧ Wizard.toggle id (Wizard.toggle id ids) ≡ₚ ids
  ∧ (id ∉ ids → Wizard.toggle id (Wizard.toggle id ids) = ids)
  ∧ (id ∈ ids →
     Wizard.toggle id (Wizard.toggle id ids)
     = filter (λ i, i ≠ id) ids ++ [id]).
Proof.
  intros Hnd. split; [by apply NoDup_toggle|].
  split; [|split].
  - apply NoDup_Permutation; [by do 2 apply NoDup_toggle|done|].
    intros j. rewrite !elem_of_toggle.
    destruct (decide (j = id)) as [->|Hne], (decide (id ∈ ids));
      intuition congruence.
  - intros Hnot. unfold Wizard.toggle at 2.
    rewrite bool_decide_false by done. unfold Wizard.toggle.
    rewrite bool_decide_true by (apply elem_of_app; right; left).
    rewrite filter_app, filter_cons_False, filter_nil, app_nil_r by tauto.
    clear Hnd. induction ids as [|i ids IH]; [done|].
    apply not_elem_of_cons in Hnot as [Hne Hnot].
    rewrite filter_cons_True by done. f_equal. by apply IH.
  - intros Hin. unfold Wizard.toggle at 2.
    rewrite bool_decide_true by done. unfold Wizard.toggle.
    rewrite bool_decide_false; [done|].
    rewrite list_elem_of_filter. tauto.
Qed.

(** X15. From the initial state, whatever the user does in the wizard, no child
    and no character is selected twice, as long as [setSelectedChildren] is
    never given a list with a repeated id. *)
Theorem selections_duplicate_free (l : list Wizard.Action) :
  Forall Wizard.well_formed l →
  NoDup (Wizard.selectedChildIds (Wizard.acts l Wizard.initialState))
  ∧ NoDup (Wizard.selectedCategoryCharacterIds
             (Wizard.acts l Wizard.initialState))
  ∧ NoDup (Wizard.selectedSideCharacterIds
             (Wizard.acts l Wizard.initialState)).
Proof.
  intros Hl.
  assert (∀ s,
            NoDup (Wizard.selectedChildIds s)
            ∧ NoDup (Wizard.selectedCategoryCharacterIds s)
            ∧ NoDup (Wizard.selectedSideCharacterIds s) →
            NoDup (Wizard.selectedChildIds (Wizard.acts l s))
            ∧ NoDup (Wizard.selectedCategoryCharacterIds (Wizard.acts l s))
            ∧ NoDup (Wizard.selectedSideCharacterIds (Wizard.acts l s)))
    as Hinv.
  { induction Hl as [|a l Ha _ IH]; intros s Hs; [done|].
    unfold Wizard.acts. simpl. apply IH.
    destruct Hs as (H1 & H2 & H3).
    destruct a; simpl in *;
      repeat split; try done; try (by apply NoDup_toggle); apply NoDup_nil_2. }
  apply Hinv. simpl. repeat split; apply NoDup_nil_2.
Qed.

End wizard.

Section wizard_instances.

Lemma toggle_twice_witness :
  NoDup ["c1"; "c2"]
  ∧ Wizard.toggle "c1" (Wizard.toggle "c1" ["c1"; "c2"]) ≡ₚ ["c1"; "c2"].
Proof.
  assert (NoDup ["c1"; "c2"]) as Hnd.
  { apply NoDup_cons. split; [not_in_list|].
    apply NoDup_cons. split; [not_in_list|]. apply NoDup_nil_2. }
  split; [exact Hnd|].
  apply (toggle_twice "c1" ["c1"; "c2"]). exact Hnd.
Defined.

Lemma selections_duplicate_free_witness :
  NoDup (Wizard.selectedChildIds
           (Wizard.acts
              [Wizard.toggleChild "c1"; Wizard.toggleChild "c2";
               Wizard.toggleChild "c1"; Wizard.setCategory (Some "k1");
               Wizard.toggleCategoryCharacter "x1"]
              Wizard.initialState)).
Proof.
  apply (selections_duplicate_free
           [Wizard.toggleChild "c1"; Wizard.toggleChild "c2";
            Wizard.toggleChild "c1"; Wizard.setCategory (Some "k1");
            Wizard.toggleCategoryCharacter "x1"]).
  repeat constructor.
Defined.

End wizard_instances.

(** * The last step of the wizard *)

Section wizard_length.
Import Remote Js WizardLength.

Variable user_id : string.
Variable category : option Category.
Variable moral : option Moral.

Lemma links_are_links ws request_id :
  Forall (λ e, is_link e = true) (links ws request_id).
Proof.
  unfold links. repeat apply Forall_app_2; case_bool_decide; by repeat constructor.
Qed.

(** The ways [handleCreateStory] ends. *)
Lemma handleCreateStory_cases (so : SeriesOutcome) (io : InsertOutcome)
    (ws : Wizard.WizardState) :
  ∃ first,
    is_route first = false ∧ is_link first = false
    ∧ (∀ title text, first ≠ AlertShown title text)
    ∧ (handleCreateStory user_id category moral so io ws
       = ((ws, false), first :: failed ws)
       ∨ (so = SeriesNoData
          ∧ Wizard.storyMode ws = Wizard.series
          ∧ is_Some (Wizard.seriesConfig ws)
          ∧ handleCreateStory user_id category moral so io ws
            = ((Wizard.initialState, false), first :: failed ws))
       ∨ ∃ mid path,
           Forall (λ e, is_link e = true) mid
           ∧ handleCreateStory user_id category moral so io ws
             = ((Wizard.initialState, true),
                first :: mid ++ [RouterReplace path])).
Proof.
  unfold handleCreateStory.
  destruct (Wizard.storyMode ws), (Wizard.seriesConfig ws) as [config|];
    try (destruct io as [request_id|];
         [exists (InsertRequest (new_request user_id ws));
          repeat (split; [done|]); right; right;
          exists (links ws request_id),
                 ("/(app)/generating/" +:+ request_id);
          split; [apply links_are_links|done]
         |exists (InsertRequest (new_request user_id ws));
          repeat (split; [done|]); by left]).
  exists (InvokeCreateSeries (series_body ws config category moral)).
  repeat (split; [done|]). destruct so as [series_id| |].
  - right; right. exists [], ("/(app)/series/" +:+ series_id). by split.
  - by left.
  - right; left. by eauto.
Qed.

(** X16. [handleCreateStory] ends in one of two ways for the user. When it
    ends with the loading flag off, the alert ['Fehler'] is shown and the
    screen has neither navigated nor inserted any link row; the selections of
    the wizard are then kept, except when [create-series] answered with no
    error and no series: then the wizard has been reset before the failure
    shows. When it ends with the flag on, the wizard is reset, no alert is
    shown and the last thing done is the navigation. If both the call of
    [create-series] and the insert of the request fail, it ends with the flag
    off. *)
Theorem create_story_two_endings (so : SeriesOutcome) (io : InsertOutcome)
    (ws : Wizard.WizardState) :
  ((handleCreateStory user_id category moral so io ws).1.2 = false →
   (∃ text, AlertShown "Fehler" text
            ∈ (handleCreateStory user_id category moral so io ws).2)
   ∧ Forall (λ e, is_route e = false ∧ is_link e = false)
       (handleCreateStory user_id category moral so io ws).2
   ∧ ((handleCreateStory user_id category moral so io ws).1.1 = ws
      ∨ (so = SeriesNoData
         ∧ Wizard.storyMode ws = Wizard.series
         ∧ is_Some (Wizard.seriesConfig ws)
         ∧ (handleCreateStory user_id category moral so io ws).1.1
           = Wizard.initialState)))
  ∧ ((handleCreateStory user_id category moral so io ws).1.2 = false →
     Wizard.storyMode ws = Wizard.single ∨ Wizard.seriesConfig ws = None
     ∨ so ≠ SeriesNoData →
     (handleCreateStory user_id category moral so io ws).1.1 = ws)
  ∧ (∀ config,
       Wizard.storyMode ws = Wizard.series →
       Wizard.seriesConfig ws = Some config →
       handleCreateStory user_id category moral SeriesNoData io ws
       = ((Wizard.initialState, false),
          [InvokeCreateSeries (series_body ws config category moral);
           ConsoleError;
           AlertShown "Fehler" "Die Serie konnte nicht erstellt werden."]))
  ∧ ((handleCreateStory user_id category moral so io ws).1.2 = true →
     (handleCreateStory user_id category moral so io ws).1.1
     = Wizard.initialState
     ∧ (∀ title text,
          AlertShown title text
          ∉ (handleCreateStory user_id category moral so io ws).2)
     ∧ ∃ path,
         last (handleCreateStory user_id category moral so io ws).2
         = Some (RouterReplace path))
  ∧ (handleCreateStory user_id category moral SeriesFailed RequestFailed ws).1.2
    = false.
Proof.
  split; [|split; [|split; [|split]]].
  - destruct (handleCreateStory_cases so io ws)
      as (first & Hr & Hl & Ha
          & [-> | [(Hso & Hm & Hc & ->) | (mid & path & Hmid & ->)]]);
      [intros _|intros _|discriminate]; cbn [fst snd].
    + split; [eexists; unfold failed; do 2 right; left|].
      split; [unfold failed; by repeat constructor|by left].
    + split; [eexists; unfold failed; do 2 right; left|].
      split; [unfold failed; by repeat constructor|]. right. by eauto.
  - destruct (handleCreateStory_cases so io ws)
      as (first & Hr & Hl & Ha
          & [-> | [(Hso & Hm & Hc & ->) | (mid & path & Hmid & ->)]]);
      [done| |discriminate].
    intros _ [Hs|[Hn|Hne]]; [congruence| |done].
    rewrite Hn in Hc. by destruct Hc.
  - intros config Hm Hc. unfold handleCreateStory, failed.
    by rewrite Hm, Hc.
  - destruct (handleCreateStory_cases so io ws)
      as (first & Hr & Hl & Ha
          & [-> | [(Hso & Hm & Hc & ->) | (mid & path & Hmid & ->)]]);
      [discriminate|discriminate|intros _].
    cbn [fst snd]. split; [done|]. split.
    + intros title text [Heq|[Hin|Hin]%elem_of_app]%elem_of_cons.
      * by apply (Ha title text).
      * rewrite Forall_forall in Hmid. by apply Hmid in Hin.
      * by apply list_elem_of_singleton in Hin.
    + exists path. by rewrite app_comm_cons, last_snoc.
  - unfold handleCreateStory.
    by destruct (Wizard.storyMode ws), (Wizard.seriesConfig ws).
Qed.

(** What the link inserts are. *)
Lemma elem_of_links ws request_id e :
  e ∈ links ws request_id
  ↔ (Wizard.selectedChildIds ws ≠ []
     ∧ e = InsertRequestChildren
             ((λ childId, (request_id, childId))
                <$> Wizard.selectedChildIds ws))
    ∨ (Wizard.selectedCategoryCharacterIds ws ≠ []
       ∧ e = InsertRequestCharacters
               (CategoryCharacter request_id
                  <$> Wizard.selectedCategoryCharacterIds ws))
    ∨ (Wizard.selectedSideCharacterIds ws ≠ []
       ∧ e = InsertRequestCharacters
               (SideCharacter request_id
                  <$> Wizard.selectedSideCharacterIds ws)).
Proof.
  unfold links. rewrite !elem_of_app.
  repeat case_bool_decide;
    rewrite ?list_elem_of_singleton, ?elem_of_nil; tauto.
Qed.

(** X17. In single-story mode, and also in series mode when there is no
    series configuration, a successful insert makes the wizard do this and
    nothing else: insert one request, ['queued'], owned by the user and to
    be notified; then, for each selection that is not empty (children,
    category characters, side characters, in this order), one insert of its
    link rows, one row for each selected id and all for the created request;
    then reset the wizard and open the generating screen of the created
    request. [create-series] is not called. *)
Theorem single_story_created (so : SeriesOutcome) (request_id : string)
    (ws : Wizard.WizardState) :
  Wizard.storyMode ws = Wizard.single ∨ Wizard.seriesConfig ws = None →
  handleCreateStory user_id category moral so (RequestCreated request_id) ws
  = ((Wizard.initialState, true),
     InsertRequest
       {| nr_user_id := user_id;
          nr_status := "queued";
          nr_category_id := Wizard.selectedCategoryId ws;
          nr_location :=
            if bool_decide (Wizard.location ws = "") then None
            else Some (Wizard.location ws);
          nr_moral_id := Wizard.selectedMoralId ws;
          nr_length := Wizard.length ws;
          nr_notify_on_complete := true;
          nr_generate_images := Wizard.generateImages ws |}
     :: ((if bool_decide (Wizard.selectedChildIds ws = []) then []
          else [InsertRequestChildren
                  ((λ childId, (request_id, childId))
                     <$> Wizard.selectedChildIds ws)])
         ++ (if bool_decide (Wizard.selectedCategoryCharacterIds ws = [])
             then []
             else [InsertRequestCharacters
                     (CategoryCharacter request_id
                        <$> Wizard.selectedCategoryCharacterIds ws)])
         ++ (if bool_decide (Wizard.selectedSideCharacterIds ws = [])
             then []
             else [InsertRequestCharacters
                     (SideCharacter request_id
                        <$> Wizard.selectedSideCharacterIds ws)]))
     ++ [RouterReplace ("/(app)/generating/" +:+ request_id)])
  ∧ (∀ childId,
       childId ∈ Wizard.selectedChildIds ws
       ↔ ∃ rows,
           InsertRequestChildren rows
           ∈ (handleCreateStory user_id category moral so
                (RequestCreated request_id) ws).2
           ∧ (request_id, childId) ∈ rows)
  ∧ (∀ charId,
       charId ∈ Wizard.selectedCategoryCharacterIds ws
       ↔ ∃ rows,
           InsertRequestCharacters rows
           ∈ (handleCreateStory user_id category moral so
                (RequestCreated request_id) ws).2
           ∧ CategoryCharacter request_id charId ∈ rows)
  ∧ (∀ charId,
       charId ∈ Wizard.selectedSideCharacterIds ws
       ↔ ∃ rows,
           InsertRequestCharacters rows
           ∈ (handleCreateStory user_id category moral so
                (RequestCreated request_id) ws).2
           ∧ SideCharacter request_id charId ∈ rows)
  ∧ (∀ rows,
       InsertRequestChildren rows
       ∈ (handleCreateStory user_id category moral so
            (RequestCreated request_id) ws).2 →
       rows ≠ []
       ∧ rows.*1 = replicate (length rows) request_id
       ∧ rows.*2 = Wizard.selectedChildIds ws)
  ∧ (∀ rows,
       InsertRequestCharacters rows
       ∈ (handleCreateStory user_id category moral so
            (RequestCreated request_id) ws).2 →
       rows ≠ []
       ∧ (rows = CategoryCharacter request_id
                  <$> Wizard.selectedCategoryCharacterIds ws
          ∨ rows = SideCharacter request_id
                     <$> Wizard.selectedSideCharacterIds ws))
  ∧ (∀ body,
       InvokeCreateSeries body
       ∉ (handleCreateStory user_id category moral so
            (RequestCreated request_id) ws).2)
  ∧ (∀ r,
       InsertRequest r
       ∈ (handleCreateStory user_id category moral so
            (RequestCreated request_id) ws).2 →
       nr_status r = "queued" ∧ nr_user_id r = user_id
       ∧ nr_notify_on_complete r = true).
Proof.
  intros Hmode.
  assert (handleCreateStory user_id category moral so
            (RequestCreated request_id) ws
          = ((Wizard.initialState, true),
             InsertRequest (new_request user_id ws)
             :: links ws request_id
             ++ [RouterReplace ("/(app)/generating/" +:+ request_id)]))
    as Hrun.
  { unfold handleCreateStory.
    destruct Hmode as [-> | ->]; [done|]. by destruct (Wizard.storyMode ws). }
  assert (∀ e,
            e ∈ (handleCreateStory user_id category moral so
                   (RequestCreated request_id) ws).2
            ↔ e = InsertRequest (new_request user_id ws)
              ∨ e ∈ links ws request_id
              ∨ e = RouterReplace ("/(app)/generating/" +:+ request_id))
    as Hmem.
  { intros e. rewrite Hrun. cbn [snd].
    by rewrite elem_of_cons, elem_of_app, list_elem_of_singleton. }
  split; [exact Hrun|].
  split; [|split; [|split; [|split; [|split; [|split]]]]].
  - intros childId. split.
    + intros Hin. eexists. split.
      * apply Hmem. right; left. apply elem_of_links. left.
        split; [|done]. intros Hnil. rewrite Hnil in Hin.
        by apply elem_of_nil in Hin.
      * by apply (list_elem_of_fmap_2 (λ childId, (request_id, childId))).
    + intros (rows & Hrows & Hin).
      apply Hmem in Hrows as [?|[Hrows|?]]; [done| |done].
      apply elem_of_links in Hrows as [[_ [= ->]]|[[_ ?]|[_ ?]]];
        [|done|done].
      by apply list_elem_of_fmap in Hin as (c & [= ->] & Hc).
  - intros charId. split.
    + intros Hin. eexists. split.
      * apply Hmem. right; left. apply elem_of_links. right; left.
        split; [|done]. intros Hnil. rewrite Hnil in Hin.
        by apply elem_of_nil in Hin.
      * by apply list_elem_of_fmap_2.
    + intros (rows & Hrows & Hin).
      apply Hmem in Hrows as [?|[Hrows|?]]; [done| |done].
      apply elem_of_links in Hrows as [[_ ?]|[[_ [= ->]]|[_ [= ->]]]];
        [done| |].
      * by apply list_elem_of_fmap in Hin as (c & [= ->] & Hc).
      * by apply list_elem_of_fmap in Hin as (c & ? & Hc).
  - intros charId. split.
    + intros Hin. eexists. split.
      * apply Hmem. right; left. apply elem_of_links. right; right.
        split; [|done]. intros Hnil. rewrite Hnil in Hin.
        by apply elem_of_nil in Hin.
      * by apply list_elem_of_fmap_2.
    + intros (rows & Hrows & Hin).
      apply Hmem in Hrows as [?|[Hrows|?]]; [done| |done].
      apply elem_of_links in Hrows as [[_ ?]|[[_ [= ->]]|[_ [= ->]]]];
        [done| |].
      * by apply list_elem_of_fmap in Hin as (c & ? & Hc).
      * by apply list_elem_of_fmap in Hin as (c & [= ->] & Hc).
  - intros rows Hrows.
    apply Hmem in Hrows as [?|[Hrows|?]]; [done| |done].
    apply elem_of_links in Hrows as [[Hne [= ->]]|[[_ ?]|[_ ?]]];
      [|done|done].
    split; [by destruct (Wizard.selectedChildIds ws)|].
    rewrite length_fmap. split.
    + clear Hne Hrun Hmem.
      induction (Wizard.selectedChildIds ws) as [|c l IH]; [done|].
      simpl. by f_equal.
    + rewrite <- list_fmap_compose. apply list_fmap_id.
  - intros rows Hrows.
    apply Hmem in Hrows as [?|[Hrows|?]]; [done| |done].
    apply elem_of_links in Hrows as [[_ ?]|[[Hne [= ->]]|[Hne [= ->]]]];
      [done| |].
    + split; [|by left].
      by destruct (Wizard.selectedCategoryCharacterIds ws).
    + split; [|by right].
      by destruct (Wizard.selectedSideCharacterIds ws).
  - intros body Hin.
    apply Hmem in Hin as [?|[Hin|?]]; [done| |done].
    by apply elem_of_links in Hin as [[_ ?]|[[_ ?]|[_ ?]]].
  - intros r Hin.
    apply Hmem in Hin as [[= ->]|[Hin|?]]; [done| |done].
    by apply elem_of_links in Hin as [[_ ?]|[[_ ?]|[_ ?]]].
Qed.

(** X18. A request the wizard has created is picked up by both screens: a fresh
    generating screen that loads its row starts the generation, once, and a
    reconciliation of the home screen within ten minutes of its creation
    shows it, once, whatever the view held before. *)
Theorem created_request_is_tracked (ws : Wizard.WizardState)
    (request_id : string) (d : RowData) (t : Table) (now : Z)
    (o : Generating.InvokeOutcome) (st : Home.State) :
  t !! request_id = Some d →
  row_user_id d = nr_user_id (new_request user_id ws) →
  row_status d = nr_status (new_request user_id ws) →
  now - 600000 ≤ row_created_at d →
  Generating.invocations
    (Generating.loadRequest request_id (Some (select_star request_id d)) o
       Generating.init).2 = 1%nat
  ∧ Generating.hasStartedGeneration
      (Generating.loadRequest request_id (Some (select_star request_id d)) o
         Generating.init).1 = true
  ∧ Home.entries_for request_id
      (Home.pendingRequests
         (Home.loadPendingRequests (Home.answer user_id now t) st).1)
    = [select_star request_id d].
Proof.
  simpl. intros Ht Hu Hs Hnow. split; [|split].
  - unfold Generating.loadRequest. simpl. rewrite Hs. simpl.
    apply invocations_startStoryGeneration.
  - unfold Generating.loadRequest. simpl. by rewrite Hs.
  - rewrite entries_for_select_pending, Ht.
    assert (Home.matches user_id now (request_id, d) = true) as ->; [|done].
    apply matches_spec. split; [done|]. rewrite Hs. split; [left|].
    unfold Home.tenMinutesAgo. lia.
Qed.

End wizard_length.

Section wizard_length_instances.
Import Remote Js WizardLength.

Lemma single_story_created_witness :
  (Wizard.storyMode
     (Wizard.acts [Wizard.setStoryMode Wizard.series; Wizard.toggleChild "c1"]
        Wizard.initialState) = Wizard.single
   ∨ Wizard.seriesConfig
       (Wizard.acts [Wizard.setStoryMode Wizard.series; Wizard.toggleChild "c1"]
          Wizard.initialState) = None)
  ∧ ∃ rows,
      InsertRequestChildren rows
      ∈ (handleCreateStory "u1" None None SeriesFailed (RequestCreated "r1")
           (Wizard.acts
              [Wizard.setStoryMode Wizard.series; Wizard.toggleChild "c1"]
              Wizard.initialState)).2
      ∧ ("r1", "c1") ∈ rows.
Proof.
  split; [right; reflexivity|].
  apply (single_story_created "u1" None None SeriesFailed "r1"
           (Wizard.acts
              [Wizard.setStoryMode Wizard.series; Wizard.toggleChild "c1"]
              Wizard.initialState)).
  - right. reflexivity.
  - left.
Defined.

Lemma created_request_is_tracked_witness :
  Sample.table !! "r2" = Some Sample.stale_row
  ∧ Home.entries_for "r2"
      (Home.pendingRequests
         (Home.loadPendingRequests (Home.answer "u1" 1000 Sample.table)
            Home.init).1)
    = [select_star "r2" Sample.stale_row].
Proof.
  split; [reflexivity|].
  apply (created_request_is_tracked "u1" Wizard.initialState "r2"
           Sample.stale_row Sample.table 1000 (Generating.Returned None)
           Home.init).
  - reflexivity.
  - reflexivity.
  - reflexivity.
  - simpl. lia.
Defined.

End wizard_length_instances.

(** * The two screens together *)

Section screens_together.
Import Remote Js.



End screens_together.

(** * The banners of the home screen *)

Section home_banner.
Import Remote Js Home HomeBanner.

Variable uid : string.

Lemma Forall_kept {A} (P Q : A → Prop) `{∀ x, Decision (Q x)} (l : list A) :
  Forall P l → Forall P (filter Q l).
Proof.
  rewrite !Forall_forall. intros Hall x [_ Hx]%list_elem_of_filter.
  by apply Hall.
Qed.

Lemma step_statuses ev st :
  Forall (λ r, status r ∈ pending_statuses) (pendingRequests st) →
  Forall (λ r, status r ∈ pending_statuses)
    (pendingRequests (step uid st ev).1).
Proof.
  intros Hall. destruct ev as [v|t now|f|rid c o]; simpl.
  - unfold trackNewRequest. destruct v as [rid|]; [|done].
    case_match; [|done]. simpl. unfold addPlaceholder.
    apply Forall_cons. split; [left|]. by apply Forall_kept.
  - apply Forall_forall.
    by intros r (k & d & _ & -> & _ & Hs & _)%elem_of_select_pending.
  - by destruct f.
  - unfold handleCancelRequest. destruct c; [done|].
    destruct o; simpl; try done. by apply Forall_kept.
Qed.

Lemma statusTexts_pending r :
  status r ∈ pending_statuses → ∃ key, statusTexts r = [key].
Proof.
  unfold pending_statuses, statusTexts. intros Hin.
  repeat (apply elem_of_cons in Hin as [->|Hin]; [by eexists|]).
  by apply elem_of_nil in Hin.
Qed.

(** X20. In every state the home screen reaches, each entry of the view is in
    one of the four statuses the query asks for, and its banner shows exactly
    one status text. *)
Theorem view_entries_labelled (evs : list Event) :
  Forall (λ r, status r ∈ pending_statuses ∧ ∃ key, statusTexts r = [key])
    (pendingRequests (run uid init evs).1).
Proof.
  assert (∀ st,
            Forall (λ r, status r ∈ pending_statuses) (pendingRequests st) →
            Forall (λ r, status r ∈ pending_statuses)
              (pendingRequests (run uid st evs).1)) as Hrun.
  { induction evs as [|ev evs' IH]; intros st Hst; [done|].
    simpl. pose proof (step_statuses ev st Hst) as H1.
    specialize (IH (step uid st ev).1 H1).
    destruct (step uid st ev) as [st1 fx1]; simpl in *.
    by destruct (run uid st1 evs') as [st2 fx2]. }
  eapply Forall_impl; [apply Hrun; constructor|].
  intros r Hr. split; [done|]. by apply statusTexts_pending.
Qed.

End home_banner.

(** * The visibility window and the timeout, over both screens *)

Section window_and_timeout.
Import Remote Js.

Variable uid : string.

(** ** C3 *)


(** ** C5 *)


End window_and_timeout.

Section window_and_timeout_instances.
Import Remote Js.





End window_and_timeout_instances.
